(** * k8s-ovs, node side: the namespace/VNID table and its two watchers

    A shallow embedding of [ksdn/vnids_node.go].  Go maps become stdpp
    [gmap]s, [sets.String] becomes a [gset string], a Go [(value, error)]
    result becomes a pair whose second component is an [option error],
    and code that talks to the outside (OVS rule programming, the cluster
    API, [time.Sleep]) threads an explicit history of calls. *)

From Stdlib Require Import ZArith NArith.
From Stdlib Require QArith_base.
From stdpp Require Import gmap strings list fin_maps sorting pretty.

Local Open Scope string_scope.
Local Open Scope list_scope.

(** ** Base types *)

(** Go's [uint32].  The table never does arithmetic on a VNID (it is only
    stored, compared and used as a key), so no wrap-around is written out;
    every statement below holds for all of [N], hence below [2^32]. *)
Abbreviation uint32 := N (only parsing).

(** Go's [error] built by [fmt.Errorf]: the formatted message. *)
Abbreviation error := string (only parsing).

(** ** [k8s.io/kubernetes/pkg/util/sets]: [sets.String] *)

Module sets.

Definition NewString : gset string := ∅.
Definition Insert (name : string) (s : gset string) : gset string := s ∪ {[name]}.
Definition Delete (name : string) (s : gset string) : gset string := s ∖ {[name]}.
Definition Len (s : gset string) : nat := size s.

(** The order of [sort.Strings]: byte-wise lexicographic. *)
Definition string_le (a b : string) : Prop := String.leb a b = true.

#[export] Instance string_le_dec a b : Decision (string_le a b).
Proof. unfold string_le. apply _. Defined.

(** [List] returns the members as a sorted slice. *)
Definition List (s : gset string) : list string :=
  merge_sort string_le (elements s).

End sets.

(** ** The table *)

(** [lock] is not a field of the model: every accessor takes it on entry
    and releases it on return, so each accessor is one atomic step on the
    pair of maps. *)
Record nodeVNIDMap := {
  ids : gmap string N;
  namespaces : gmap N (gset string);
}.

Definition newNodeVNIDMap : nodeVNIDMap :=
  {| ids := ∅; namespaces := ∅ |}.

(** [set] and [vmap.namespaces[vnid]] are one Go map object, so the
    [Insert] is seen through the table: the entry is rewritten with the
    grown set. *)
Definition addNamespaceToSet (name : string) (vnid : uint32)
    (vmap : nodeVNIDMap) : nodeVNIDMap :=
  let set :=
    match namespaces vmap !! vnid with
    | Some set => set
    | None => sets.NewString
    end in
  {| ids := ids vmap;
     namespaces := <[vnid := sets.Insert name set]> (namespaces vmap) |}.

Definition removeNamespaceFromSet (name : string) (vnid : uint32)
    (vmap : nodeVNIDMap) : nodeVNIDMap :=
  match namespaces vmap !! vnid with
  | Some set =>
      let set := sets.Delete name set in
      if Nat.eqb (sets.Len set) 0
      then {| ids := ids vmap; namespaces := delete vnid (namespaces vmap) |}
      else {| ids := ids vmap; namespaces := <[vnid := set]> (namespaces vmap) |}
  | None => vmap
  end.

(** A [nil] slice is the empty list. *)
Definition GetNamespaces (vmap : nodeVNIDMap) (id : uint32) : list string :=
  match namespaces vmap !! id with
  | Some set => sets.List set
  | None => []
  end.

Definition errNoNetID (name : string) : error :=
  "Failed to find netid for namespace: " +:+ name +:+ " in vnid map".

Definition GetVNID (vmap : nodeVNIDMap) (name : string) : uint32 * option error :=
  match ids vmap !! name with
  | Some id => (id, None)
  | None => (0%N, Some (errNoNetID name))
  end.

(** The [glog.Infof] lines of [setVNID] and [unsetVNID] are not modelled. *)
Definition setVNID (name : string) (id : uint32) (vmap : nodeVNIDMap) : nodeVNIDMap :=
  let vmap :=
    match ids vmap !! name with
    | Some oldId => removeNamespaceFromSet name oldId vmap
    | None => vmap
    end in
  let vmap := {| ids := <[name := id]> (ids vmap); namespaces := namespaces vmap |} in
  addNamespaceToSet name id vmap.

Definition unsetVNID (name : string) (vmap : nodeVNIDMap)
    : (uint32 * option error) * nodeVNIDMap :=
  match ids vmap !! name with
  | None => ((0%N, Some (errNoNetID name)), vmap)
  | Some id =>
      let vmap := removeNamespaceFromSet name id vmap in
      let vmap := {| ids := delete name (ids vmap); namespaces := namespaces vmap |} in
      ((id, None), vmap)
  end.

(** ** Sequences of table updates *)

Inductive TableCall :=
| CallSetVNID (name : string) (id : uint32)
| CallUnsetVNID (name : string).

Definition applyCall (c : TableCall) (vmap : nodeVNIDMap) : nodeVNIDMap :=
  match c with
  | CallSetVNID name id => setVNID name id vmap
  | CallUnsetVNID name => snd (unsetVNID name vmap)
  end.

(** The calls are applied from the head of the list on. *)
Definition applyCalls (cs : list TableCall) (vmap : nodeVNIDMap) : nodeVNIDMap :=
  fold_left (fun t c => applyCall c t) cs vmap.

(** [populateVNIDs], once the listing has succeeded: one [setVNID] per
    listed assignment, in order. *)
Record NetNamespace := {
  NetName : string;
  NetID : uint32;
}.

Definition populateVNIDs_loop (netnsList : list NetNamespace)
    (vmap : nodeVNIDMap) : nodeVNIDMap :=
  fold_left (fun t net => setVNID (NetName net) (NetID net) t) netnsList vmap.

(** ** The table invariant *)

(** Forward and reverse index agree, and no reverse set is empty. *)
Record consistent (vmap : nodeVNIDMap) : Prop := {
  fwd_in_rev : ∀ n v, ids vmap !! n = Some v →
      ∃ s, namespaces vmap !! v = Some s ∧ n ∈ s;
  rev_in_fwd : ∀ v s n, namespaces vmap !! v = Some s → n ∈ s →
      ids vmap !! n = Some v;
  rev_nonempty : ∀ v s, namespaces vmap !! v = Some s → s ≠ ∅;
}.

(** Membership in the reverse index, as [GetNamespaces] shows it. *)
Definition member (vmap : nodeVNIDMap) (v : uint32) (n : string) : Prop :=
  ∃ s, namespaces vmap !! v = Some s ∧ n ∈ s.

(** * The node: watchers and reconciliation *)

(** ** Objects of the cluster API, as far as this file reads them *)

Record Pod := {
  PodName : string;                 (* [pod.Name] *)
}.

Record ServicePort := {
  Protocol : string;                (* [kapi.Protocol], a string type *)
  Port : Z;                         (* [int32] *)
}.

Record Service := {
  Name : string;                    (* [ObjectMeta.Name] *)
  Namespace : string;               (* [ObjectMeta.Namespace] *)
  UID : string;                     (* [ObjectMeta.UID] *)
  ClusterIP : string;               (* [Spec.ClusterIP] *)
  Ports : list ServicePort;         (* [Spec.Ports] *)
}.

(** Events of the namespace watch.  The type lives in [pkg/etcdmanager];
    the handler reads [evt.Type], [evt.NetNS] and knows two type
    constants, anything else falls to its [default] branch. *)
Inductive EventType :=
| EventAdded
| EventRemoved
| EventOther (code : Z).

Record Event := {
  Type_ : EventType;
  NetNS : NetNamespace;
}.

(** [cache.DeltaType]. *)
Inductive DeltaType := Sync | Added | Updated | Deleted.

Definition DeltaType_String (t : DeltaType) : string :=
  match t with
  | Sync => "Sync"
  | Added => "Added"
  | Updated => "Updated"
  | Deleted => "Deleted"
  end.

(** [delta.Object] is asserted to be a [*kapi.Service]; the model carries
    the service itself. *)
Record Delta := {
  DType : DeltaType;
  Object : Service;
}.

(** Modelled from the spec: the constant [vnid.GlobalVNID] of
    [k8s-ovs/pkg/vnid], whose declaration is not part of these sources.
    The spec calls VNID zero the "global"/default VNID. *)
Definition GlobalVNID : uint32 := 0%N.

(** ** The world outside the table *)

(** Every call that leaves this file is written to a history, oldest
    first.  [CUpdatePodNetwork] marks the entry into a reconciliation
    pass with its three arguments.  A log line keeps its format string and
    the error it reports; the other format arguments are not rendered. *)
Inductive Call :=
| CUpdatePodNetwork (namespace : string) (oldNetID netID : uint32)
| CGetLocalPods (namespace : string)
| CListServices (namespace : string)
| CUpdatePod (pod : Pod)
| CDeletePod (namespace name : string)
| CDeleteServiceRules (svc : Service)
| CAddServiceRules (svc : Service) (netid : uint32)
| CSleep (d : Z)
| CGlogError (format : string) (err : error).

Record KsdnNode := {
  vnids : nodeVNIDMap;
  history : list Call;
}.

Definition recordCall (c : Call) (node : KsdnNode) : KsdnNode :=
  {| vnids := vnids node; history := history node ++ [c] |}.

(** The collaborators of the node.  What each one answers may depend on
    the table and on everything that happened before the call.
    [WhileAsleep] is the table as the other goroutines (the namespace
    watcher) have left it when a [time.Sleep] of this goroutine ends. *)
Record Collaborators := {
  GetLocalPods : KsdnNode → string → list Pod * list Pod * option error;
  ListServices : KsdnNode → string → list Service * option error;
  UpdatePod : KsdnNode → Pod → option error;
  DeletePod : KsdnNode → string → string → option error;
  DeleteServiceRules : KsdnNode → Service → option error;
  AddServiceRules : KsdnNode → Service → uint32 → option error;
  IsServiceIPSet : Service → bool;
  WhileAsleep : KsdnNode → nodeVNIDMap;
}.

(** ** A state monad over the node *)

Definition M (A : Type) : Type := KsdnNode → A * KsdnNode.

Definition ret {A} (a : A) : M A := fun node => (a, node).

Definition bind {A B} (m : M A) (k : A → M B) : M B :=
  fun node => let (a, node) := m node in k a node.

Notation "x <~ m ;; k" := (bind m (fun x => k))
  (at level 100, m at next level, right associativity).
Notation "m ;;; k" := (bind m (fun _ => k))
  (at level 100, right associativity).

(** Call a collaborator: it answers on the node as it is, and the call is
    added to the history. *)
Definition call {A} (c : Call) (answer : KsdnNode → A) : M A :=
  fun node => (answer node, recordCall c node).

Definition glogError (format : string) (err : error) : M unit :=
  fun node => (tt, recordCall (CGlogError format err) node).

Definition glogIfError (format : string) (err : option error) : M unit :=
  match err with
  | Some e => glogError format e
  | None => ret tt
  end.

Fixpoint forEach {A} (l : list A) (body : A → M unit) : M unit :=
  match l with
  | [] => ret tt
  | x :: l => body x ;;; forEach l body
  end.

Definition is_nil (err : option error) : bool :=
  match err with
  | None => true
  | Some _ => false
  end.

(** ** [utilwait.ExponentialBackoff] *)

Definition Millisecond : Z := 1000000.    (* [time.Duration] counts nanoseconds *)

(** [utilwait.Backoff], with the three fields [WaitAndGetVNID] sets.
    [Jitter] stays at its zero value there, so the sleep is never
    jittered. *)
Record Backoff := {
  Duration : Z;
  Factor : QArith_base.Q;
  Steps : nat;
}.

Definition ErrWaitTimeout : error := "timed out waiting for the condition".

(** [time.Duration(float64(duration) * backoff.Factor)]: the product,
    truncated.  The float product is exact for the durations that occur
    here (all below [2^53] nanoseconds, with a factor of 3/2). *)
Definition scaleDuration (duration : Z) (factor : QArith_base.Q) : Z :=
  Z.quot (duration * QArith_base.Qnum factor) (Z.pos (QArith_base.Qden factor)).

Section ExponentialBackoff.
Context {St : Type}.
Variable Sleep : Z → St → St.
Variable factor : QArith_base.Q.
Variable condition : St → bool * option error * St.

(** Modelled from the spec: [utilwait.ExponentialBackoff] of
    [k8s.io/kubernetes/pkg/util/wait], which is not part of these
    sources: at most [Steps] calls of the condition, a sleep before each
    call but the first, the delay multiplied by [Factor] after each
    sleep; it stops at the first call that reports success or an error
    and reports a timeout when the calls are used up.  [i] is the loop
    counter and [remaining] the iterations still to run. *)
Fixpoint ExponentialBackoff_loop (i remaining : nat) (duration : Z) (s : St)
    : option error * St :=
  match remaining with
  | O => (Some ErrWaitTimeout, s)
  | S remaining =>
      let '(duration, s) :=
        match i with
        | O => (duration, s)
        | S _ => (scaleDuration duration factor, Sleep duration s)
        end in
      let '(ok, err, s) := condition s in
      if negb (is_nil err) || ok then (err, s)
      else ExponentialBackoff_loop (S i) remaining duration s
  end.
End ExponentialBackoff.

Definition ExponentialBackoff {St} (Sleep : Z → St → St) (backoff : Backoff)
    (condition : St → bool * option error * St) (s : St) : option error * St :=
  ExponentialBackoff_loop Sleep (Factor backoff) condition
    0 (Steps backoff) (Duration backoff) s.

(** ** [isServiceChanged] *)

(** The loop over the indices of [oldsvc.Spec.Ports].  It runs only when
    both slices have one length, so both lookups are in range. *)
Fixpoint isServiceChanged_loop (indices : list nat) (oldPorts newPorts : list ServicePort)
    : bool :=
  match indices with
  | [] => false
  | i :: indices =>
      match oldPorts !! i, newPorts !! i with
      | Some o, Some n =>
          if negb (String.eqb (Protocol o) (Protocol n)) || negb (Z.eqb (Port o) (Port n))
          then true
          else isServiceChanged_loop indices oldPorts newPorts
      | _, _ => true                  (* index out of range: not reached *)
      end
  end.

Definition isServiceChanged (oldsvc newsvc : Service) : bool :=
  if Nat.eqb (length (Ports oldsvc)) (length (Ports newsvc))
  then isServiceChanged_loop (seq 0 (length (Ports oldsvc))) (Ports oldsvc) (Ports newsvc)
  else true.

(** ** The node methods *)

Section Node.
Variable K : Collaborators.

(** [time.Sleep] on the node: the sleep is recorded, and when it ends
    the table is what the other goroutines made of it meanwhile. *)
Definition Sleep (d : Z) (node : KsdnNode) : KsdnNode :=
  let node := recordCall (CSleep d) node in
  {| vnids := WhileAsleep K node; history := history node |}.

(** The state of the closure handed to [ExponentialBackoff]: the
    captured [id], the node, and a count of the closure's calls, which
    the source does not keep and which nothing reads but the theorems. *)
Record waitState := {
  ws_id : uint32;
  ws_attempts : nat;
  ws_node : KsdnNode;
}.

Definition waitSleep (d : Z) (s : waitState) : waitState :=
  {| ws_id := ws_id s; ws_attempts := ws_attempts s; ws_node := Sleep d (ws_node s) |}.

Definition waitCondition (name : string) (s : waitState)
    : bool * option error * waitState :=
  let '(id, err) := GetVNID (vnids (ws_node s)) name in
  (is_nil err, None,
   {| ws_id := id; ws_attempts := S (ws_attempts s); ws_node := ws_node s |}).

Definition waitBackoff : Backoff :=
  {| Duration := 100 * Millisecond;
     Factor := QArith_base.Qmake 3 2;     (* 1.5 *)
     Steps := 5 |}.

Definition WaitAndGetVNID_run (name : string) (node : KsdnNode)
    : option error * waitState :=
  ExponentialBackoff waitSleep waitBackoff (waitCondition name)
    {| ws_id := 0%N; ws_attempts := 0; ws_node := node |}.

Definition WaitAndGetVNID (name : string) : M (uint32 * option error) :=
  fun node =>
    let '(err, s) := WaitAndGetVNID_run name node in
    match err with
    | None => ((ws_id s, None), ws_node s)
    | Some _ => ((0%N, Some (errNoNetID name)), ws_node s)
    end.

(** [oldNetID] is a parameter the body never reads. *)
Definition updatePodNetwork (namespace : string) (oldNetID netID : uint32) : M unit :=
  call (CUpdatePodNetwork namespace oldNetID netID) (fun _ => tt) ;;;
  r <~ call (CGetLocalPods namespace) (fun node => GetLocalPods K node namespace) ;;
  let '(runPods, otherPods, err) := r in
  glogIfError "Could not get list of local pods in namespace %q: %v" err ;;;
  r <~ call (CListServices namespace) (fun node => ListServices K node namespace) ;;
  let '(services, err) := r in
  glogIfError "Could not get list of services in namespace %q: %v" err ;;;
  let services := if is_nil err then services else [] in
  forEach runPods (fun pod =>
    err <~ call (CUpdatePod pod) (fun node => UpdatePod K node pod) ;;
    glogIfError "Could not update pod %q in namespace %q: %v" err) ;;;
  forEach otherPods (fun pod =>
    err <~ call (CDeletePod namespace (PodName pod))
             (fun node => DeletePod K node namespace (PodName pod)) ;;
    glogIfError "Could not delete pod %q in namespace %q: %v" err) ;;;
  forEach services (fun svc =>
    if negb (IsServiceIPSet K svc) then ret tt
    else
      err <~ call (CDeleteServiceRules svc) (fun node => DeleteServiceRules K node svc) ;;
      glogIfError "Error adding OVS flows for service %v, netid %d: %v" err ;;;
      err <~ call (CAddServiceRules svc netID)
               (fun node => AddServiceRules K node svc netID) ;;
      glogIfError "Error deleting OVS flows for service %v: %v" err).

Definition vnids_setVNID (name : string) (id : uint32) : M unit :=
  fun node => (tt, {| vnids := setVNID name id (vnids node); history := history node |}).

Definition vnids_unsetVNID (name : string) : M (uint32 * option error) :=
  fun node =>
    let '(r, vmap) := unsetVNID name (vnids node) in
    (r, {| vnids := vmap; history := history node |}).

Definition vnids_GetVNID (name : string) : M (uint32 * option error) :=
  fun node => (GetVNID (vnids node) name, node).

(** The body of the loop of [nodeHandleNetnsEvent]. *)
Definition nodeHandleNetnsEvent_body (evt : Event) : M unit :=
  let netns := NetNS evt in
  match Type_ evt with
  | EventAdded =>
      r <~ vnids_GetVNID (NetName netns) ;;
      let '(oldNetID, err) := r in
      if is_nil err && N.eqb oldNetID (NetID netns) then ret tt
      else
        vnids_setVNID (NetName netns) (NetID netns) ;;;
        updatePodNetwork (NetName netns) oldNetID (NetID netns)
  | EventRemoved =>
      updatePodNetwork (NetName netns) (NetID netns) GlobalVNID ;;;
      _ <~ vnids_unsetVNID (NetName netns) ;;
      ret tt
  | EventOther code =>
      glogError "Internal error: unknown event type: " (pretty code)
  end.

Definition nodeHandleNetnsEvent (batch : list Event) : M unit :=
  forEach batch nodeHandleNetnsEvent_body.

(** The function [watchServices] hands to [RunEventQueue], in two parts.
    [services] is the map the closure captures; it holds the services by
    value.  First the tail of the Sync/Added/Updated case, from the VNID
    lookup on, which both ways through the [if exists] block reach. *)
Definition watchServices_addRules (delta : Delta) (services : gmap string Service)
    : M (option error * gmap string Service) :=
  let serv := Object delta in
  r <~ WaitAndGetVNID (Namespace serv) ;;
  let '(netid, err) := r in
  match err with
  | Some e =>
      ret (Some ("skipped adding service rules for serviceEvent: "
                   +:+ DeltaType_String (DType delta) +:+ ", Error: " +:+ e),
           services)
  | None =>
      err <~ call (CAddServiceRules serv netid)
               (fun node => AddServiceRules K node serv netid) ;;
      match err with
      | Some e => ret (Some e, services)
      | None => ret (None, <[UID serv := serv]> services)
      end
  end.

Definition watchServices_handler (delta : Delta) (services : gmap string Service)
    : M (option error * gmap string Service) :=
  let serv := Object delta in
  if negb (IsServiceIPSet K serv) then ret (None, services)
  else
    match DType delta with
    | Sync | Added | Updated =>
        match services !! UID serv with
        | Some oldsvc =>
            if negb (isServiceChanged oldsvc serv) then ret (None, services)
            else
              err <~ call (CDeleteServiceRules oldsvc)
                       (fun node => DeleteServiceRules K node oldsvc) ;;
              glogIfError "%v" err ;;;            (* [glog.Error(err)] *)
              watchServices_addRules delta services
        | None => watchServices_addRules delta services
        end
    | Deleted =>
        let services := delete (UID serv) services in
        err <~ call (CDeleteServiceRules serv)
                 (fun node => DeleteServiceRules K node serv) ;;
        match err with
        | Some e => ret (Some e, services)
        | None => ret (None, services)
        end
    end.

End Node.

(** ** What a history shows *)


(** The reconciliation passes a history records, oldest first, each with
    its namespace, old VNID and new VNID. *)
Definition passOf (c : Call) : option (string * uint32 * uint32) :=
  match c with
  | CUpdatePodNetwork namespace oldNetID netID => Some (namespace, oldNetID, netID)
  | _ => None
  end.

Definition passes (h : list Call) : list (string * uint32 * uint32) :=
  omap passOf h.

(** The service-rule calls a history records. *)
Definition ruleCallOf (c : Call) : option Call :=
  match c with
  | CDeleteServiceRules _ | CAddServiceRules _ _ => Some c
  | _ => None
  end.

Definition ruleCalls (h : list Call) : list Call := omap ruleCallOf h.

(** A computation that leaves the table alone and starts no pass. *)
Definition inert {A} (m : M A) : Prop :=
  ∀ node, vnids (snd (m node)) = vnids node ∧
          ∃ ext, history (snd (m node)) = history node ++ ext ∧ passes ext = [].

(** ** Nodes for the examples *)

(** [kapi.IsServiceIPSet] of the Kubernetes API package: a cluster IP
    that is neither empty nor ["None"]. *)
Definition kapi_IsServiceIPSet (svc : Service) : bool :=
  negb (String.eqb (ClusterIP svc) "None") && negb (String.eqb (ClusterIP svc) "").

(** A calm node: no local pods, no services, no collaborator fails, and
    the table stays as it is while a goroutine sleeps. *)
Definition calmNode : Collaborators :=
  {| GetLocalPods := fun _ _ => ([], [], None);
     ListServices := fun _ _ => ([], None);
     UpdatePod := fun _ _ => None;
     DeletePod := fun _ _ _ => None;
     DeleteServiceRules := fun _ _ => None;
     AddServiceRules := fun _ _ _ => None;
     IsServiceIPSet := kapi_IsServiceIPSet;
     WhileAsleep := vnids |}.

(** The same node with an OVS bridge that refuses every new service rule. *)
Definition brokenBridgeNode : Collaborators :=
  {| GetLocalPods := fun _ _ => ([], [], None);
     ListServices := fun _ _ => ([], None);
     UpdatePod := fun _ _ => None;
     DeletePod := fun _ _ _ => None;
     DeleteServiceRules := fun _ _ => None;
     AddServiceRules := fun _ _ _ => Some "ovs-ofctl: add-flow failed";
     IsServiceIPSet := kapi_IsServiceIPSet;
     WhileAsleep := vnids |}.

Definition addedEvent (ns : string) (id : uint32) : Event :=
  {| Type_ := EventAdded; NetNS := {| NetName := ns; NetID := id |} |}.

Definition removedEvent (ns : string) (id : uint32) : Event :=
  {| Type_ := EventRemoved; NetNS := {| NetName := ns; NetID := id |} |}.

(** The node as the lookup number [i] of [WaitAndGetVNID] finds it,
    counting from 0: [i] sleeps later, the first of length [d]. *)
Fixpoint afterSleeps (K : Collaborators) (i : nat) (d : Z) (node : KsdnNode) : KsdnNode :=
  match i with
  | O => node
  | S i => afterSleeps K i (scaleDuration d (Factor waitBackoff)) (Sleep K d node)
  end.

Definition atAttempt (K : Collaborators) (i : nat) (node : KsdnNode) : KsdnNode :=
  afterSleeps K i (Duration waitBackoff) node.

Definition tcp (port : Z) : ServicePort := {| Protocol := "TCP"; Port := port |}.

(** A service of namespace ["ns1"] with a cluster IP and the given ports. *)
Definition webService (ports : list ServicePort) : Service :=
  {| Name := "web"; Namespace := "ns1"; UID := "uid-1";
     ClusterIP := "10.96.0.10"; Ports := ports |}.

(** The error [watchServices] returns when the VNID lookup fails. *)
Definition errSkipped (t : DeltaType) (e : error) : error :=
  "skipped adding service rules for serviceEvent: "
    +:+ DeltaType_String t +:+ ", Error: " +:+ e.

(** The first step of [setVNID]: the table with the old entry of [name],
    if there is one, taken out of the reverse index. *)
Definition withoutOld (name : string) (vmap : nodeVNIDMap) : nodeVNIDMap :=
  match ids vmap !! name with
  | Some oldId => removeNamespaceFromSet name oldId vmap
  | None => vmap
  end.

(** ** [populateVNIDs] as a whole *)

(** [listing] is what [eClient.GetNetNamespaces] returned: the list and
    the error.  On an error the function returns it and stores nothing;
    otherwise it stores every listed assignment, in order. *)
Definition populateVNIDs (listing : list NetNamespace * option error)
    (vmap : nodeVNIDMap) : option error * nodeVNIDMap :=
  let '(netnsList, err) := listing in
  match err with
  | Some e => (Some e, vmap)
  | None => (None, populateVNIDs_loop netnsList vmap)
  end.

(** The VNID of the last entry of a listing that names [name]. *)
Fixpoint lastListed (name : string) (netnsList : list NetNamespace) : option uint32 :=
  match netnsList with
  | [] => None
  | net :: netnsList =>
      match lastListed name netnsList with
      | Some id => Some id
      | None => if String.eqb (NetName net) name then Some (NetID net) else None
      end
  end.

(** ** More views of a batch and of a history *)

(** The table call an event stands for, when its guard lets it through. *)
Definition tableCallsOf (evt : Event) : list TableCall :=
  match Type_ evt with
  | EventAdded => [CallSetVNID (NetName (NetNS evt)) (NetID (NetNS evt))]
  | EventRemoved => [CallUnsetVNID (NetName (NetNS evt))]
  | EventOther _ => []
  end.

Definition podUpdateOf (c : Call) : option Pod :=
  match c with
  | CUpdatePod pod => Some pod
  | _ => None
  end.

Definition podDeleteOf (c : Call) : option (string * string) :=
  match c with
  | CDeletePod namespace name => Some (namespace, name)
  | _ => None
  end.

Definition sleepOf (c : Call) : option Z :=
  match c with
  | CSleep d => Some d
  | _ => None
  end.

(** What [isServiceChanged] reads of a port. *)
Definition portKey (p : ServicePort) : string * Z := (Protocol p, Port p).

(** The rule calls a service gets in a reconciliation pass. *)
Definition passRuleCalls (K : Collaborators) (netID : uint32) (svc : Service) : list Call :=
  if IsServiceIPSet K svc
  then [CDeleteServiceRules svc; CAddServiceRules svc netID]
  else [].

(** A calm node whose namespace watcher installs ["ns1" -> 5] during the
    second sleep of a waiting goroutine. *)
Definition lateWatcherNode : Collaborators :=
  {| GetLocalPods := fun _ _ => ([], [], None);
     ListServices := fun _ _ => ([], None);
     UpdatePod := fun _ _ => None;
     DeletePod := fun _ _ _ => None;
     DeleteServiceRules := fun _ _ => None;
     AddServiceRules := fun _ _ _ => None;
     IsServiceIPSet := kapi_IsServiceIPSet;
     WhileAsleep := fun node =>
       if Nat.leb 2 (length (omap sleepOf (history node)))
       then setVNID "ns1" 5%N (vnids node)
       else vnids node |}.

(** A node with two running pods, one pod to reschedule, a service with a
    cluster IP and a headless one, where updating the first pod fails. *)
Definition busyNode : Collaborators :=
  {| GetLocalPods := fun _ _ =>
       ([ {| PodName := "p1" |}; {| PodName := "p2" |} ], [ {| PodName := "p3" |} ], None);
     ListServices := fun _ _ =>
       ([ webService [tcp 80];
          {| Name := "db"; Namespace := "ns1"; UID := "uid-2";
             ClusterIP := "None"; Ports := [tcp 5432] |} ], None);
     UpdatePod := fun _ pod =>
       if String.eqb (PodName pod) "p1" then Some "ovs-ofctl: mod-flows failed" else None;
     DeletePod := fun _ _ _ => None;
     DeleteServiceRules := fun _ _ => None;
     AddServiceRules := fun _ _ _ => None;
     IsServiceIPSet := kapi_IsServiceIPSet;
     WhileAsleep := vnids |}.

(** * Properties of the table *)


Lemma elem_of_sets_List (n : string) (s : gset string) :
  In n (sets.List s) ↔ n ∈ s.
Proof.
  unfold sets.List. rewrite <- list_elem_of_In.
  rewrite merge_sort_Permutation. apply elem_of_elements.
Qed.

Lemma In_GetNamespaces vmap v n :
  In n (GetNamespaces vmap v) ↔ ∃ s, namespaces vmap !! v = Some s ∧ n ∈ s.
Proof.
  unfold GetNamespaces. destruct (namespaces vmap !! v) as [s|] eqn:E.
  - rewrite elem_of_sets_List. split; [eauto | intros (s' & [= <-] & ?); done].
  - split; [intros [] | intros (s' & ? & ?); done].
Qed.

Lemma GetVNID_found vmap n v :
  GetVNID vmap n = (v, None) ↔ ids vmap !! n = Some v.
Proof.
  unfold GetVNID. destruct (ids vmap !! n); split; intros; simplify_eq; done.
Qed.

Lemma Len_zero (s : gset string) : Nat.eqb (sets.Len s) 0 = true ↔ s = ∅.
Proof.
  unfold sets.Len. rewrite Nat.eqb_eq. split.
  - intros H. by apply leibniz_equiv, size_empty_inv.
  - intros ->. apply size_empty.
Qed.

(** What the two set helpers do to each entry of the reverse index. *)
Lemma removeNamespaceFromSet_ids n v vmap :
  ids (removeNamespaceFromSet n v vmap) = ids vmap.
Proof.
  unfold removeNamespaceFromSet.
  destruct (namespaces vmap !! v); [|done]. by case (Nat.eqb _ _).
Qed.

Lemma removeNamespaceFromSet_lookup n v vmap v' :
  namespaces (removeNamespaceFromSet n v vmap) !! v' =
    if decide (v = v') then
      match namespaces vmap !! v with
      | Some s => if decide (s ∖ {[n]} = ∅) then None else Some (s ∖ {[n]})
      | None => None
      end
    else namespaces vmap !! v'.
Proof.
  unfold removeNamespaceFromSet, sets.Delete.
  destruct (namespaces vmap !! v) as [s|] eqn:E.
  - destruct (Nat.eqb (sets.Len (s ∖ {[n]})) 0) eqn:L; simpl.
    + apply Len_zero in L. rewrite lookup_delete.
      repeat case_decide; simplify_eq; done.
    + assert (s ∖ {[n]} ≠ ∅) by (intros H; apply Len_zero in H; congruence).
      rewrite lookup_insert.
      repeat case_decide; simplify_eq; done.
  - case_decide; simplify_eq; done.
Qed.

Lemma addNamespaceToSet_ids n v vmap :
  ids (addNamespaceToSet n v vmap) = ids vmap.
Proof. done. Qed.

Lemma addNamespaceToSet_lookup n v vmap v' :
  namespaces (addNamespaceToSet n v vmap) !! v' =
    if decide (v = v') then Some (default ∅ (namespaces vmap !! v) ∪ {[n]})
    else namespaces vmap !! v'.
Proof.
  unfold addNamespaceToSet, sets.Insert, sets.NewString; simpl.
  rewrite lookup_insert. case_decide; [|done].
  by destruct (namespaces vmap !! v).
Qed.

Lemma member_remove n v vmap v' m :
  member (removeNamespaceFromSet n v vmap) v' m ↔
  member vmap v' m ∧ ¬ (v = v' ∧ m = n).
Proof.
  unfold member. rewrite removeNamespaceFromSet_lookup.
  case_decide as Hv; [subst v'|naive_solver].
  destruct (namespaces vmap !! v) as [s|]; [|naive_solver].
  case_decide as He.
  - split; [naive_solver|]. intros [(s' & [= <-] & Hm) Hn].
    exfalso. assert (m ∈ s ∖ {[n]}) by set_solver. set_solver.
  - split.
    + intros (s' & [= <-] & Hm). split; [exists s|]; set_solver.
    + intros [(s' & [= <-] & Hm) Hn]. eexists; split; [done|]. set_solver.
Qed.

Lemma member_add n v vmap v' m :
  member (addNamespaceToSet n v vmap) v' m ↔
  member vmap v' m ∨ (v = v' ∧ m = n).
Proof.
  unfold member. rewrite addNamespaceToSet_lookup.
  case_decide as Hv; [subst v'|naive_solver].
  destruct (namespaces vmap !! v) as [s|]; simpl.
  - split.
    + intros (s' & [= <-] & Hm). set_solver.
    + intros [(s' & [= <-] & Hm)|[_ ->]]; eexists; split; try done; set_solver.
  - split.
    + intros (s' & [= <-] & Hm). set_solver.
    + intros [(s' & ? & Hm)|[_ ->]]; [done|]. eexists; split; [done|]. set_solver.
Qed.

Lemma nonempty_remove n v vmap :
  (∀ v' s, namespaces vmap !! v' = Some s → s ≠ ∅) →
  ∀ v' s, namespaces (removeNamespaceFromSet n v vmap) !! v' = Some s → s ≠ ∅.
Proof.
  intros H v' s. rewrite removeNamespaceFromSet_lookup.
  case_decide; [|apply H].
  destruct (namespaces vmap !! v); [|done].
  case_decide; [done|]. by intros [= <-].
Qed.

Lemma nonempty_add n v vmap :
  (∀ v' s, namespaces vmap !! v' = Some s → s ≠ ∅) →
  ∀ v' s, namespaces (addNamespaceToSet n v vmap) !! v' = Some s → s ≠ ∅.
Proof.
  intros H v' s. rewrite addNamespaceToSet_lookup.
  case_decide; [|apply H]. intros [= <-]. set_solver.
Qed.

Lemma setVNID_ids name id vmap :
  ids (setVNID name id vmap) = <[name := id]> (ids vmap).
Proof.
  unfold setVNID. destruct (ids vmap !! name); simpl;
    by rewrite ?removeNamespaceFromSet_ids.
Qed.

Lemma member_setVNID name id vmap v m :
  member (setVNID name id vmap) v m ↔
  (member vmap v m ∧ ¬ (ids vmap !! name = Some v ∧ m = name)) ∨
  (v = id ∧ m = name).
Proof.
  unfold setVNID. destruct (ids vmap !! name) as [old|] eqn:E.
  - rewrite member_add. unfold member at 1; simpl.
    fold (member (removeNamespaceFromSet name old vmap) v m).
    rewrite member_remove. naive_solver.
  - rewrite member_add. unfold member at 1; simpl.
    fold (member vmap v m). naive_solver.
Qed.

Lemma consistent_empty : consistent newNodeVNIDMap.
Proof. split; simpl; intros *; by rewrite lookup_empty. Qed.

Lemma consistent_setVNID name id vmap :
  consistent vmap → consistent (setVNID name id vmap).
Proof.
  intros [Hf Hr Hn]. split.
  - intros n v. rewrite setVNID_ids. fold (member (setVNID name id vmap) v n).
    rewrite member_setVNID, lookup_insert.
    case_decide as Hd; [naive_solver|]. intros Hl. left. split; [by apply Hf|].
    naive_solver.
  - intros v s n Hs Hm.
    assert (member (setVNID name id vmap) v n) as M by (by exists s).
    apply member_setVNID in M. rewrite setVNID_ids, lookup_insert.
    destruct M as [[(s' & Hs' & Hm') Hne]|[-> ->]].
    + pose proof (Hr _ _ _ Hs' Hm') as Hl. case_decide; [subst; naive_solver|done].
    + by rewrite decide_True.
  - unfold setVNID. apply nonempty_add. simpl.
    destruct (ids vmap !! name); [by apply nonempty_remove | done].
Qed.

Lemma consistent_unsetVNID name vmap :
  consistent vmap → consistent (snd (unsetVNID name vmap)).
Proof.
  intros [Hf Hr Hn]. unfold unsetVNID.
  destruct (ids vmap !! name) as [id|] eqn:E; [|by split]. simpl. split; simpl.
  - intros n v. rewrite removeNamespaceFromSet_ids, lookup_delete.
    case_decide; [done|]. intros Hl.
    fold (member (removeNamespaceFromSet name id vmap) v n).
    rewrite member_remove. split; [by apply Hf|]. naive_solver.
  - intros v s n Hs Hm.
    assert (member (removeNamespaceFromSet name id vmap) v n) as M by (by exists s).
    apply member_remove in M. destruct M as [(s' & Hs' & Hm') Hne].
    pose proof (Hr _ _ _ Hs' Hm') as Hl.
    rewrite removeNamespaceFromSet_ids, lookup_delete.
    case_decide; [subst; naive_solver|done].
  - by apply nonempty_remove.
Qed.

Lemma consistent_applyCalls cs vmap :
  consistent vmap → consistent (applyCalls cs vmap).
Proof.
  unfold applyCalls. revert vmap.
  induction cs as [|c cs IH]; intros vmap H; simpl; [done|].
  apply IH. destruct c; simpl;
    [by apply consistent_setVNID | by apply consistent_unsetVNID].
Qed.

Lemma consistent_populateVNIDs netnsList vmap :
  consistent vmap → consistent (populateVNIDs_loop netnsList vmap).
Proof.
  unfold populateVNIDs_loop. revert vmap.
  induction netnsList as [|net l IH]; intros vmap H; simpl; [done|].
  by apply IH, consistent_setVNID.
Qed.

(** C1.  After any sequence of [setVNID]/[unsetVNID] calls on the empty
    table, and so after each call of such a sequence, the two indices
    agree: a namespace whose [GetVNID] is [v] is listed by
    [GetNamespaces v], and a namespace listed by [GetNamespaces v] has
    [GetVNID] equal to [v]. *)
Theorem vnid_indices_agree (cs : list TableCall) (n : string) (v : uint32) :
  let vmap := applyCalls cs newNodeVNIDMap in
  GetVNID vmap n = (v, None) ↔ In n (GetNamespaces vmap v).
Proof.
  intros vmap.
  destruct (consistent_applyCalls cs _ consistent_empty) as [Hf Hr _].
  fold vmap in Hf, Hr.
  rewrite GetVNID_found, In_GetNamespaces. split.
  - apply Hf.
  - intros (s & Hs & Hm). by apply (Hr v s n).
Qed.

Lemma vnid_indices_agree_witness :
  let vmap := applyCalls [CallSetVNID "a" 1; CallSetVNID "b" 1; CallSetVNID "a" 2;
                          CallUnsetVNID "b"]%N newNodeVNIDMap in
  GetVNID vmap "a" = (2%N, None) ∧ In "a" (GetNamespaces vmap 2%N).
Proof.
  intros vmap. split; [vm_compute; reflexivity|].
  apply (vnid_indices_agree
           [CallSetVNID "a" 1; CallSetVNID "b" 1; CallSetVNID "a" 2;
            CallUnsetVNID "b"]%N "a" 2%N).
  vm_compute. reflexivity.
Defined.

(** ** [setVNID] as an upsert *)

Lemma nodeVNIDMap_eq (a b : nodeVNIDMap) :
  ids a = ids b → (∀ v, namespaces a !! v = namespaces b !! v) → a = b.
Proof.
  destruct a as [ia na], b as [ib nb]; simpl. intros -> H.
  f_equal. by apply map_eq.
Qed.

Lemma setVNID_lookup name id vmap v :
  namespaces (setVNID name id vmap) !! v =
    let vmap1 :=
      match ids vmap !! name with
      | Some oldId => removeNamespaceFromSet name oldId vmap
      | None => vmap
      end in
    if decide (id = v)
    then Some (default ∅ (namespaces vmap1 !! id) ∪ {[name]})
    else namespaces vmap1 !! v.
Proof. unfold setVNID. by rewrite addNamespaceToSet_lookup. Qed.

Lemma setVNID_lookup_same name id vmap :
  ids vmap !! name = Some id →
  namespaces vmap !! id = Some (default ∅ (namespaces vmap !! id) ∪ {[name]}) →
  setVNID name id vmap = vmap.
Proof.
  intros Hi Hn. apply nodeVNIDMap_eq.
  - rewrite setVNID_ids. by apply insert_id.
  - intros v. rewrite setVNID_lookup, Hi. simpl.
    rewrite !removeNamespaceFromSet_lookup.
    destruct (namespaces vmap !! id) as [s|] eqn:E; [|done].
    simpl in Hn. injection Hn as Hs.
    destruct (decide (id = v)) as [<-|Hv]; [|done].
    rewrite decide_True, E by done. f_equal.
    assert (name ∈ s) as Hin by (rewrite Hs; set_solver). clear Hs.
    case_decide as He; simpl; apply set_eq; intros x;
      destruct (decide (x = name)) as [->|]; set_solver.
Qed.

Lemma setVNID_twice name id vmap :
  setVNID name id (setVNID name id vmap) = setVNID name id vmap.
Proof.
  apply setVNID_lookup_same.
  - rewrite setVNID_ids. apply lookup_insert_eq.
  - rewrite setVNID_lookup. simpl. rewrite decide_True by done. simpl.
    f_equal. set_solver.
Qed.

(** C6.  [setVNID] is an idempotent upsert: a second [setVNID n v] right
    after the first leaves every [GetVNID] and every [GetNamespaces]
    answer as the first call left it. *)
Theorem setVNID_idempotent (vmap : nodeVNIDMap) (n : string) (v : uint32) :
  let once := setVNID n v vmap in
  let twice := setVNID n v once in
  (∀ m, GetVNID twice m = GetVNID once m) ∧
  (∀ w, GetNamespaces twice w = GetNamespaces once w) ∧
  GetVNID once n = (v, None).
Proof.
  intros once twice. unfold twice, once. rewrite setVNID_twice.
  split; [done|]. split; [done|].
  apply GetVNID_found. rewrite setVNID_ids. apply lookup_insert_eq.
Qed.

(** Reassignment, for any namespace and any two distinct VNIDs. *)
Lemma setVNID_reassign vmap n (v w : uint32) :
  v ≠ w →
  let vmap' := setVNID n w (setVNID n v vmap) in
  GetVNID vmap' n = (w, None) ∧
  ¬ In n (GetNamespaces vmap' v) ∧
  In n (GetNamespaces vmap' w).
Proof.
  intros Hne vmap'. split; [|split].
  - apply GetVNID_found. unfold vmap'. rewrite setVNID_ids. apply lookup_insert_eq.
  - rewrite In_GetNamespaces. fold (member vmap' v n). unfold vmap'.
    rewrite member_setVNID, setVNID_ids, lookup_insert_eq. naive_solver.
  - rewrite In_GetNamespaces. fold (member vmap' w n). unfold vmap'.
    rewrite member_setVNID. by right.
Qed.

(** C7.  From any table, [setVNID "ns1" 5] then [setVNID "ns1" 7] leaves
    [GetVNID "ns1" = 7], ["ns1"] out of [GetNamespaces 5] and in
    [GetNamespaces 7]. *)
Theorem setVNID_moves_namespace (vmap : nodeVNIDMap) :
  let vmap' := setVNID "ns1" 7%N (setVNID "ns1" 5%N vmap) in
  GetVNID vmap' "ns1" = (7%N, None) ∧
  ¬ In "ns1" (GetNamespaces vmap' 5%N) ∧
  In "ns1" (GetNamespaces vmap' 7%N).
Proof. by apply setVNID_reassign. Qed.

(** ** [unsetVNID] *)

(** C8.  [unsetVNID name] on a table without [name] fails with the
    not-found error and returns the table as it was.  On a table where
    [name] has VNID [v] it returns [v], drops the forward entry, takes
    [name] out of [v]'s reverse set and keeps the set's other members;
    when [name] was the only member the set itself is deleted, so
    [GetNamespaces v] is the nil slice over an absent key. *)
Theorem unsetVNID_spec (vmap : nodeVNIDMap) (name : string) :
  (ids vmap !! name = None →
     unsetVNID name vmap = ((0%N, Some (errNoNetID name)), vmap)) ∧
  (∀ v, ids vmap !! name = Some v →
     let vmap' := snd (unsetVNID name vmap) in
     fst (unsetVNID name vmap) = (v, None) ∧
     GetVNID vmap' name = (0%N, Some (errNoNetID name)) ∧
     (∀ m, m ≠ name → GetVNID vmap' m = GetVNID vmap m) ∧
     ¬ In name (GetNamespaces vmap' v) ∧
     (∀ w m, ¬ (w = v ∧ m = name) →
        (In m (GetNamespaces vmap' w) ↔ In m (GetNamespaces vmap w))) ∧
     (namespaces vmap !! v = Some {[name]} →
        namespaces vmap' !! v = None ∧ GetNamespaces vmap' v = [])).
Proof.
  split.
  - intros H. unfold unsetVNID. by rewrite H.
  - intros v H vmap'. unfold vmap', unsetVNID. rewrite H. simpl.
    split; [done|]. split; [|split; [|split; [|split]]].
    + unfold GetVNID; simpl. by rewrite lookup_delete_eq.
    + intros m Hm. unfold GetVNID; simpl.
      by rewrite lookup_delete_ne, removeNamespaceFromSet_ids.
    + rewrite In_GetNamespaces; simpl.
      fold (member (removeNamespaceFromSet name v vmap) v name).
      rewrite member_remove. naive_solver.
    + intros w m Hwm. rewrite !In_GetNamespaces; simpl.
      fold (member (removeNamespaceFromSet name v vmap) w m) (member vmap w m).
      rewrite member_remove. naive_solver.
    + intros Hs.
      assert (namespaces (removeNamespaceFromSet name v vmap) !! v = None) as E.
      { rewrite removeNamespaceFromSet_lookup, decide_True, Hs by done.
        rewrite decide_True; [done|set_solver]. }
      split; [done|]. unfold GetNamespaces; simpl. by rewrite E.
Qed.

Lemma unsetVNID_spec_witness :
  let vmap := setVNID "ns1" 5%N newNodeVNIDMap in
  unsetVNID "ns1" newNodeVNIDMap = ((0%N, Some (errNoNetID "ns1")), newNodeVNIDMap) ∧
  fst (unsetVNID "ns1" vmap) = (5%N, None) ∧
  GetNamespaces (snd (unsetVNID "ns1" vmap)) 5%N = [].
Proof.
  intros vmap. split.
  - apply (proj1 (unsetVNID_spec newNodeVNIDMap "ns1")). vm_compute. reflexivity.
  - assert (ids vmap !! "ns1" = Some 5%N) as H by (vm_compute; reflexivity).
    destruct (proj2 (unsetVNID_spec vmap "ns1") 5%N H) as (R & _ & _ & _ & _ & E).
    split; [exact R|]. apply E. vm_compute. reflexivity.
Defined.

(** * Properties of the namespace path *)

Lemma inert_ret {A} (a : A) : inert (ret a).
Proof. intros node. split; [done|]. exists []. by rewrite app_nil_r. Qed.

Lemma inert_bind {A B} (m : M A) (k : A → M B) :
  inert m → (∀ a, inert (k a)) → inert (bind m k).
Proof.
  intros Hm Hk node. unfold bind.
  destruct (Hm node) as (Hv & e1 & He1 & Hp1).
  destruct (m node) as [a node1]; simpl in *.
  destruct (Hk a node1) as (Hv' & e2 & He2 & Hp2).
  split; [congruence|]. exists (e1 ++ e2).
  rewrite He2, He1, <- app_assoc. split; [done|].
  unfold passes in *. by rewrite omap_app, Hp1, Hp2.
Qed.

Lemma inert_call {A} (c : Call) (answer : KsdnNode → A) :
  passOf c = None → inert (call c answer).
Proof.
  intros Hc node. split; [done|]. exists [c]. split; [done|].
  unfold passes; simpl. by rewrite Hc.
Qed.

Lemma inert_glogIfError format err : inert (glogIfError format err).
Proof.
  destruct err; simpl; [|apply inert_ret].
  intros node. split; [done|]. by eexists [_].
Qed.

Lemma inert_forEach {A} (l : list A) (body : A → M unit) :
  (∀ x, inert (body x)) → inert (forEach l body).
Proof.
  intros Hb. induction l as [|x l IH]; simpl; [apply inert_ret|].
  apply inert_bind; auto.
Qed.

Lemma start_then_inert {A} (c : Call) (m : M A) p node :
  inert m → passOf c = Some p →
  let node' := snd (bind (call c (fun _ => tt)) (fun _ => m) node) in
  vnids node' = vnids node ∧
  passes (history node') = passes (history node) ++ [p].
Proof.
  intros Hin Hc. unfold bind, call. simpl.
  destruct (Hin (recordCall c node)) as (Hv & ext & He & Hp).
  split; [by rewrite Hv|].
  rewrite He. simpl. unfold passes in *.
  rewrite !omap_app, Hp. simpl. by rewrite Hc, app_nil_r.
Qed.

Section NamespacePath.
Variable K : Collaborators.

(** A pass records its own start, then only talks to collaborators. *)
Lemma updatePodNetwork_effect namespace oldNetID netID node :
  let node' := snd (updatePodNetwork K namespace oldNetID netID node) in
  vnids node' = vnids node ∧
  passes (history node') = passes (history node) ++ [(namespace, oldNetID, netID)].
Proof.
  unfold updatePodNetwork. apply start_then_inert; [|done].
  apply inert_bind; [by apply inert_call|]. intros [[runPods otherPods] err].
  apply inert_bind; [apply inert_glogIfError|]. intros _.
  apply inert_bind; [by apply inert_call|]. intros [services err'].
  apply inert_bind; [apply inert_glogIfError|]. intros _.
  apply inert_bind.
  { apply inert_forEach. intros pod. apply inert_bind; [by apply inert_call|].
    intros e. apply inert_glogIfError. }
  intros _. apply inert_bind.
  { apply inert_forEach. intros pod. apply inert_bind; [by apply inert_call|].
    intros e. apply inert_glogIfError. }
  intros _. apply inert_forEach. intros svc.
  destruct (negb (IsServiceIPSet K svc)); [apply inert_ret|].
  apply inert_bind; [by apply inert_call|]. intros e.
  apply inert_bind; [apply inert_glogIfError|]. intros _.
  apply inert_bind; [by apply inert_call|]. intros e'. apply inert_glogIfError.
Qed.

Lemma updatePodNetwork_vnids namespace oldNetID netID node :
  vnids (snd (updatePodNetwork K namespace oldNetID netID node)) = vnids node.
Proof. apply updatePodNetwork_effect. Qed.

Lemma updatePodNetwork_passes namespace oldNetID netID node :
  passes (history (snd (updatePodNetwork K namespace oldNetID netID node))) =
  passes (history node) ++ [(namespace, oldNetID, netID)].
Proof. apply updatePodNetwork_effect. Qed.

(** One event at a time. *)
Lemma nodeHandleNetnsEvent_one evt node :
  snd (nodeHandleNetnsEvent K [evt] node) = snd (nodeHandleNetnsEvent_body K evt node).
Proof.
  unfold nodeHandleNetnsEvent; simpl. unfold bind, ret.
  by destruct (nodeHandleNetnsEvent_body K evt node).
Qed.

Lemma handle_removed ns id node :
  let evt := removedEvent ns id in
  let during := snd (updatePodNetwork K ns id GlobalVNID node) in
  snd (nodeHandleNetnsEvent K [evt] node) =
    {| vnids := snd (unsetVNID ns (vnids during)); history := history during |}.
Proof.
  intros evt during. rewrite nodeHandleNetnsEvent_one.
  unfold nodeHandleNetnsEvent_body, bind, during; simpl.
  destruct (updatePodNetwork K ns id GlobalVNID node) as [[] node1]; simpl.
  unfold vnids_unsetVNID. by destruct (unsetVNID ns (vnids node1)).
Qed.

Lemma handle_added ns id node :
  let evt := addedEvent ns id in
  snd (nodeHandleNetnsEvent K [evt] node) =
    if decide (ids (vnids node) !! ns = Some id) then node
    else snd (updatePodNetwork K ns (fst (GetVNID (vnids node) ns)) id
                {| vnids := setVNID ns id (vnids node); history := history node |}).
Proof.
  intros evt. rewrite nodeHandleNetnsEvent_one.
  unfold nodeHandleNetnsEvent_body, bind, vnids_GetVNID, GetVNID; simpl.
  destruct (ids (vnids node) !! ns) as [old|] eqn:E; simpl.
  - destruct (N.eqb_spec old id) as [->|Hne].
    + by rewrite decide_True.
    + rewrite decide_False by congruence. unfold vnids_setVNID.
      by destruct (updatePodNetwork _ _ _ _ _) as [[] ?].
  - unfold vnids_setVNID.
    by destruct (updatePodNetwork _ _ _ _ _) as [[] ?].
Qed.

Lemma nodeHandleNetnsEvent_cons evt batch node :
  snd (nodeHandleNetnsEvent K (evt :: batch) node) =
  snd (nodeHandleNetnsEvent K batch (snd (nodeHandleNetnsEvent K [evt] node))).
Proof.
  rewrite nodeHandleNetnsEvent_one. unfold nodeHandleNetnsEvent; simpl.
  unfold bind. by destruct (nodeHandleNetnsEvent_body K evt node) as [[] n1].
Qed.

Lemma unsetVNID_forgets ns vmap : ids (snd (unsetVNID ns vmap)) !! ns = None.
Proof.
  unfold unsetVNID. destruct (ids vmap !! ns) eqn:E; simpl; [|done].
  apply lookup_delete_eq.
Qed.

Lemma GetVNID_missing vmap ns :
  ids vmap !! ns = None → GetVNID vmap ns = (0%N, Some (errNoNetID ns)).
Proof. unfold GetVNID. by intros ->. Qed.

(** C2, as the code has it.  On a Removed event the pass is started with
    the VNID the event carries as the old VNID (the table is not asked)
    and [GlobalVNID] as the new one; the pass leaves the table as it found
    it, and only then is the namespace's entry removed.  When the event
    carries the VNID the table holds, that is the namespace's current
    VNID; so after the batch [Added(ns, v), Removed(ns, v)] the table has
    no entry for [ns] and the last pass ran with old VNID [v]. *)
Theorem removed_pass_then_unset (node : KsdnNode) (ns : string) (id : uint32) :
  let during := snd (updatePodNetwork K ns id GlobalVNID node) in
  let after := snd (nodeHandleNetnsEvent K [removedEvent ns id] node) in
  let batch := snd (nodeHandleNetnsEvent K [addedEvent ns id; removedEvent ns id] node) in
  passes (history after) = passes (history node) ++ [(ns, id, GlobalVNID)] ∧
  vnids during = vnids node ∧
  history after = history during ∧
  vnids after = snd (unsetVNID ns (vnids node)) ∧
  GetVNID (vnids after) ns = (0%N, Some (errNoNetID ns)) ∧
  (GetVNID (vnids node) ns = (id, None) →
     passes (history after) =
       passes (history node) ++ [(ns, fst (GetVNID (vnids node) ns), GlobalVNID)]) ∧
  GetVNID (vnids batch) ns = (0%N, Some (errNoNetID ns)) ∧
  last (passes (history batch)) = Some (ns, id, GlobalVNID).
Proof.
  intros during after batch.
  assert (∀ n0, let d := snd (updatePodNetwork K ns id GlobalVNID n0) in
            let a := snd (nodeHandleNetnsEvent K [removedEvent ns id] n0) in
            passes (history a) = passes (history n0) ++ [(ns, id, GlobalVNID)] ∧
            vnids d = vnids n0 ∧ history a = history d ∧
            vnids a = snd (unsetVNID ns (vnids n0)) ∧
            GetVNID (vnids a) ns = (0%N, Some (errNoNetID ns))) as Hone.
  { intros n0 d a. unfold a, d. rewrite handle_removed. simpl.
    destruct (updatePodNetwork_effect ns id GlobalVNID n0) as [Hv Hp].
    simpl in Hv, Hp. rewrite Hv, Hp.
    repeat split. apply GetVNID_missing, unsetVNID_forgets. }
  destruct (Hone node) as (Hp & Hv & Hh & Ht & Hg). fold during after in Hp, Hv, Hh, Ht, Hg.
  repeat (split; [done|]). split; [|split].
  - intros ->. exact Hp.
  - unfold batch. rewrite nodeHandleNetnsEvent_cons.
    apply (Hone (snd (nodeHandleNetnsEvent K [addedEvent ns id] node))).
  - unfold batch. rewrite nodeHandleNetnsEvent_cons.
    destruct (Hone (snd (nodeHandleNetnsEvent K [addedEvent ns id] node))) as (-> & _).
    apply last_snoc.
Qed.

(** C3.  An Added event that carries the VNID the table already holds
    for the namespace changes nothing.  So a second [Added(ns, v)] right
    after the first leaves the node (table and history) as the first left
    it: together they start one pass when the table did not hold [v] for
    [ns] before, with one table update, and none when it did. *)
Theorem added_duplicate_is_noop (node : KsdnNode) (ns : string) (v : uint32) :
  let once := snd (nodeHandleNetnsEvent K [addedEvent ns v] node) in
  let twice := snd (nodeHandleNetnsEvent K [addedEvent ns v; addedEvent ns v] node) in
  (GetVNID (vnids node) ns = (v, None) → once = node) ∧
  twice = once ∧
  (GetVNID (vnids node) ns ≠ (v, None) →
     passes (history twice) =
       passes (history node) ++ [(ns, fst (GetVNID (vnids node) ns), v)] ∧
     vnids twice = setVNID ns v (vnids node)).
Proof.
  intros once twice.
  assert (GetVNID (vnids once) ns = (v, None)) as Hafter.
  { apply GetVNID_found. unfold once. rewrite handle_added.
    case_decide as Hd; [done|].
    destruct (updatePodNetwork_effect ns (fst (GetVNID (vnids node) ns)) v
      {| vnids := setVNID ns v (vnids node); history := history node |}) as [Hv _].
    simpl in Hv. rewrite Hv, setVNID_ids. apply lookup_insert_eq. }
  assert (twice = once) as Htw.
  { unfold twice. rewrite nodeHandleNetnsEvent_cons. fold once.
    rewrite handle_added. apply GetVNID_found in Hafter. by rewrite decide_True. }
  split; [|split; [done|]].
  - intros H. apply GetVNID_found in H. unfold once. rewrite handle_added.
    by rewrite decide_True.
  - intros H. rewrite Htw. unfold once. rewrite handle_added.
    rewrite decide_False by (by rewrite <- GetVNID_found).
    destruct (updatePodNetwork_effect ns (fst (GetVNID (vnids node) ns)) v
      {| vnids := setVNID ns v (vnids node); history := history node |}) as [Hv Hp].
    simpl in Hv, Hp. by rewrite Hv, Hp.
Qed.

(** C9.  An Added event for a namespace the table does not know starts
    the pass with old VNID 0, which is [GlobalVNID]; an Added event that
    moves a namespace away from [GlobalVNID] starts the pass with the very
    same arguments. *)
Theorem added_unknown_passes_global (node known : KsdnNode) (ns : string) (v : uint32) :
  ids (vnids node) !! ns = None →
  let after := snd (nodeHandleNetnsEvent K [addedEvent ns v] node) in
  let after' := snd (nodeHandleNetnsEvent K [addedEvent ns v] known) in
  passes (history after) = passes (history node) ++ [(ns, 0%N, v)] ∧
  GlobalVNID = 0%N ∧
  (ids (vnids known) !! ns = Some GlobalVNID → v ≠ GlobalVNID →
     passes (history after') = passes (history known) ++ [(ns, 0%N, v)]).
Proof.
  intros Hn after after'. unfold after, after'. rewrite !handle_added.
  split; [|split; [done|]].
  - rewrite decide_False by congruence. unfold GetVNID. rewrite Hn. simpl.
    apply (updatePodNetwork_passes ns 0%N v
             {| vnids := setVNID ns v (vnids _); history := history _ |}).
  - intros Hk Hv. rewrite decide_False by congruence.
    unfold GetVNID. rewrite Hk. simpl.
    apply (updatePodNetwork_passes ns 0%N v
             {| vnids := setVNID ns v (vnids _); history := history _ |}).
Qed.

End NamespacePath.

Lemma removed_pass_then_unset_witness :
  let node := {| vnids := setVNID "a" 1%N newNodeVNIDMap; history := [] |} in
  let after := snd (nodeHandleNetnsEvent calmNode [removedEvent "a" 1%N] node) in
  GetVNID (vnids node) "a" = (1%N, None) ∧
  passes (history after) = [("a", 1%N, GlobalVNID)].
Proof.
  intros node after.
  assert (GetVNID (vnids node) "a" = (1%N, None)) as H by (vm_compute; reflexivity).
  split; [exact H|].
  destruct (removed_pass_then_unset calmNode node "a" 1%N) as (_ & _ & _ & _ & _ & E & _).
  exact (E H).
Defined.

(** Against C2 as the spec words it: the table holds VNID 1 for ["a"], the
    Removed event carries VNID 2, and the pass is started with old VNID 2. *)
Lemma removed_pass_old_vnid_counterexample :
  let node := {| vnids := setVNID "a" 1%N newNodeVNIDMap; history := [] |} in
  let after := snd (nodeHandleNetnsEvent calmNode [removedEvent "a" 2%N] node) in
  GetVNID (vnids node) "a" = (1%N, None) ∧
  passes (history after) = [("a", 2%N, GlobalVNID)] ∧
  ¬ (∀ (K : Collaborators) (node : KsdnNode) (ns : string) (id current : uint32),
       GetVNID (vnids node) ns = (current, None) →
       passes (history (snd (nodeHandleNetnsEvent K [removedEvent ns id] node))) =
         passes (history node) ++ [(ns, current, GlobalVNID)]).
Proof.
  intros node after. split; [vm_compute; reflexivity|].
  split; [vm_compute; reflexivity|].
  intros H. specialize (H calmNode node "a" 2%N 1%N).
  vm_compute in H. specialize (H eq_refl). discriminate H.
Qed.

Lemma added_duplicate_is_noop_witness :
  let node := {| vnids := newNodeVNIDMap; history := [] |} in
  let twice := snd (nodeHandleNetnsEvent calmNode [addedEvent "a" 3%N; addedEvent "a" 3%N] node) in
  passes (history twice) = [("a", 0%N, 3%N)] ∧
  GetVNID (vnids twice) "a" = (3%N, None).
Proof.
  intros node twice.
  destruct (added_duplicate_is_noop calmNode node "a" 3%N) as (_ & _ & H).
  destruct H as [Hp Hv]; [vm_compute; congruence|].
  split; [exact Hp|]. fold twice in Hv. rewrite Hv. vm_compute. reflexivity.
Defined.

Lemma added_unknown_passes_global_witness :
  let node := {| vnids := newNodeVNIDMap; history := [] |} in
  let known := {| vnids := setVNID "a" GlobalVNID newNodeVNIDMap; history := [] |} in
  passes (history (snd (nodeHandleNetnsEvent calmNode [addedEvent "a" 5%N] node))) =
    [("a", 0%N, 5%N)] ∧
  passes (history (snd (nodeHandleNetnsEvent calmNode [addedEvent "a" 5%N] known))) =
    [("a", 0%N, 5%N)].
Proof.
  intros node known.
  destruct (added_unknown_passes_global calmNode node known "a" 5%N) as (H1 & _ & H2).
  - vm_compute. reflexivity.
  - split; [exact H1|]. apply H2.
    + vm_compute. reflexivity.
    + vm_compute. discriminate.
Defined.

(** * Properties of the lookups *)

Section Lookups.
Variable K : Collaborators.

(** However the condition fares, the closure is called at most as often
    as iterations remain. *)
Lemma backoff_attempts_bounded name i remaining d s :
  (ws_attempts (snd (ExponentialBackoff_loop (waitSleep K) (Factor waitBackoff)
                       (waitCondition name) i remaining d s))
     ≤ ws_attempts s + remaining)%nat.
Proof.
  revert i d s. induction remaining as [|r IH]; intros i d s; simpl; [lia|].
  destruct i as [|i].
  - unfold waitCondition at 1.
    destruct (GetVNID (vnids (ws_node s)) name) as [id [e|]]; simpl.
    + etransitivity; [apply IH|]. simpl. lia.
    + lia.
  - unfold waitCondition at 1.
    destruct (GetVNID (vnids (ws_node (waitSleep K d s))) name) as [id [e|]]; simpl.
    + etransitivity; [apply IH|]. simpl. lia.
    + lia.
Qed.

Lemma WaitAndGetVNID_run_found name v node :
  ids (vnids node) !! name = Some v →
  WaitAndGetVNID_run K name node =
    (None, {| ws_id := v; ws_attempts := 1; ws_node := node |}).
Proof.
  intros H. unfold WaitAndGetVNID_run, ExponentialBackoff. simpl.
  unfold waitCondition, GetVNID. simpl. by rewrite H.
Qed.

Lemma WaitAndGetVNID_run_exhausted name node :
  (∀ i, (i < 5)%nat → ids (vnids (atAttempt K i node)) !! name = None) →
  WaitAndGetVNID_run K name node =
    (Some ErrWaitTimeout,
     {| ws_id := 0%N; ws_attempts := 5; ws_node := atAttempt K 4 node |}).
Proof.
  intros H.
  pose proof (H 0%nat ltac:(lia)) as H0. pose proof (H 1%nat ltac:(lia)) as H1.
  pose proof (H 2%nat ltac:(lia)) as H2. pose proof (H 3%nat ltac:(lia)) as H3.
  pose proof (H 4%nat ltac:(lia)) as H4. clear H.
  unfold atAttempt in *. simpl in H0, H1, H2, H3, H4.
  unfold WaitAndGetVNID_run, ExponentialBackoff. simpl.
  unfold waitCondition at 1. unfold GetVNID at 1. simpl. rewrite H0. simpl.
  unfold waitCondition at 1. unfold GetVNID at 1. simpl. rewrite H1. simpl.
  unfold waitCondition at 1. unfold GetVNID at 1. simpl. rewrite H2. simpl.
  unfold waitCondition at 1. unfold GetVNID at 1. simpl. rewrite H3. simpl.
  unfold waitCondition at 1. unfold GetVNID at 1. simpl. rewrite H4. simpl.
  reflexivity.
Qed.

Lemma atAttempt_4_history node :
  history (atAttempt K 4 node) =
    history node ++ [CSleep 100000000; CSleep 150000000;
                     CSleep 225000000; CSleep 337500000].
Proof. unfold atAttempt. simpl. by rewrite <- !app_assoc. Qed.

(** C5.  A name the table lacks makes [GetVNID] fail with the not-found
    error and VNID 0, and makes [WaitAndGetVNID], when none of its five
    lookups finds the name, fail with the same error after five lookups
    and four sleeps of 100, 150, 225 and 337.5 milliseconds; it never
    makes more than five lookups.  A name the table holds makes both
    return its VNID and no error, [WaitAndGetVNID] at its first lookup. *)
Theorem lookup_fails_after_five_attempts (node : KsdnNode) (name : string) :
  (ids (vnids node) !! name = None →
     GetVNID (vnids node) name = (0%N, Some (errNoNetID name))) ∧
  ((∀ i, (i < 5)%nat → ids (vnids (atAttempt K i node)) !! name = None) →
     let '(r, node') := WaitAndGetVNID K name node in
     r = (0%N, Some (errNoNetID name)) ∧
     r = GetVNID (vnids node) name ∧
     ws_attempts (snd (WaitAndGetVNID_run K name node)) = 5%nat ∧
     history node' =
       history node ++ [CSleep (100 * Millisecond); CSleep (150 * Millisecond);
                        CSleep (225 * Millisecond); CSleep 337500000]) ∧
  (ws_attempts (snd (WaitAndGetVNID_run K name node)) ≤ 5)%nat ∧
  (∀ v, ids (vnids node) !! name = Some v →
     GetVNID (vnids node) name = (v, None) ∧
     WaitAndGetVNID K name node = ((v, None), node) ∧
     ws_attempts (snd (WaitAndGetVNID_run K name node)) = 1%nat).
Proof.
  split; [apply GetVNID_missing|]. split; [|split].
  - intros H. unfold WaitAndGetVNID.
    rewrite (WaitAndGetVNID_run_exhausted name node H). simpl.
    split; [done|]. split; [|split; [done|apply atAttempt_4_history]].
    symmetry. apply GetVNID_missing, (H 0%nat). lia.
  - apply (backoff_attempts_bounded name 0 5).
  - intros v H. split; [by apply GetVNID_found|].
    unfold WaitAndGetVNID. by rewrite (WaitAndGetVNID_run_found name v node H).
Qed.

End Lookups.

Lemma lookup_fails_after_five_attempts_witness :
  let node := {| vnids := setVNID "ns1" 5%N newNodeVNIDMap; history := [] |} in
  fst (WaitAndGetVNID calmNode "nonexistent" node) = (0%N, Some (errNoNetID "nonexistent")) ∧
  GetVNID (vnids node) "nonexistent" = (0%N, Some (errNoNetID "nonexistent")) ∧
  WaitAndGetVNID calmNode "ns1" node = ((5%N, None), node).
Proof.
  intros node.
  destruct (lookup_fails_after_five_attempts calmNode node "nonexistent")
    as (Hg & Hw & _ & _).
  destruct (lookup_fails_after_five_attempts calmNode node "ns1") as (_ & _ & _ & Hf).
  split; [|split].
  - assert (∀ i, (i < 5)%nat →
              ids (vnids (atAttempt calmNode i node)) !! "nonexistent" = None) as H.
    { intros i Hi. do 5 (destruct i as [|i]; [vm_compute; reflexivity|]). lia. }
    specialize (Hw H). destruct (WaitAndGetVNID calmNode "nonexistent" node) as [r n'].
    apply Hw.
  - apply Hg. vm_compute. reflexivity.
  - apply (Hf 5%N). vm_compute. reflexivity.
Defined.

(** * Properties of the service path *)

Lemma isServiceChanged_loop_false indices (oldPorts newPorts : list ServicePort) :
  isServiceChanged_loop indices oldPorts newPorts = false ↔
  ∀ i, i ∈ indices →
    ∃ o n, oldPorts !! i = Some o ∧ newPorts !! i = Some n ∧
           Protocol o = Protocol n ∧ Port o = Port n.
Proof.
  induction indices as [|i indices IH]; simpl.
  - split; [intros _ i Hi; by apply elem_of_nil in Hi | done].
  - destruct (oldPorts !! i) as [o|] eqn:Eo, (newPorts !! i) as [n|] eqn:En.
    + destruct (String.eqb_spec (Protocol o) (Protocol n)) as [Hp|Hp],
               (Z.eqb_spec (Port o) (Port n)) as [Hq|Hq]; simpl.
      * rewrite IH. split.
        -- intros H j Hj. apply elem_of_cons in Hj as [->|Hj]; [|by apply H].
           by exists o, n.
        -- intros H j Hj. apply H. by right.
      * split; [done|]. intros H.
        destruct (H i) as (o' & n' & ? & ? & ? & ?); [by left|]. congruence.
      * split; [done|]. intros H.
        destruct (H i) as (o' & n' & ? & ? & ? & ?); [by left|]. congruence.
      * split; [done|]. intros H.
        destruct (H i) as (o' & n' & ? & ? & ? & ?); [by left|]. congruence.
    + split; [done|]. intros H.
      destruct (H i) as (o' & n' & ? & ? & _); [by left|]. congruence.
    + split; [done|]. intros H.
      destruct (H i) as (o' & n' & ? & ? & _); [by left|]. congruence.
    + split; [done|]. intros H.
      destruct (H i) as (o' & n' & ? & ? & _); [by left|]. congruence.
Qed.

Lemma isServiceChanged_false (oldsvc newsvc : Service) :
  isServiceChanged oldsvc newsvc = false ↔
  length (Ports oldsvc) = length (Ports newsvc) ∧
  ∀ i o n, Ports oldsvc !! i = Some o → Ports newsvc !! i = Some n →
           Protocol o = Protocol n ∧ Port o = Port n.
Proof.
  unfold isServiceChanged.
  destruct (Nat.eqb_spec (length (Ports oldsvc)) (length (Ports newsvc))) as [Hl|Hl].
  - rewrite isServiceChanged_loop_false. split.
    + intros H. split; [done|]. intros i o n Ho Hn.
      destruct (H i) as (o' & n' & ? & ? & ?).
      { apply elem_of_seq. apply lookup_lt_Some in Ho. lia. }
      by simplify_eq.
    + intros [_ H] i Hi. apply elem_of_seq in Hi.
      destruct (lookup_lt_is_Some_2 (Ports oldsvc) i) as [o Ho]; [lia|].
      destruct (lookup_lt_is_Some_2 (Ports newsvc) i) as [n Hn]; [lia|].
      exists o, n. split; [done|]. split; [done|]. by apply (H i).
  - split; [done|]. by intros [? _].
Qed.

Section ServicePath.
Variable K : Collaborators.

(** The tail of the handler, case by case. *)
Lemma watchServices_addRules_cases delta services node :
  let serv := Object delta in
  let r := watchServices_addRules K delta services node in
  let w := WaitAndGetVNID K (Namespace serv) node in
  match snd (fst w) with
  | Some e =>
      r = ((Some (errSkipped (DType delta) e), services), snd w)
  | None =>
      let netid := fst (fst w) in
      match AddServiceRules K (snd w) serv netid with
      | Some e =>
          r = ((Some e, services), recordCall (CAddServiceRules serv netid) (snd w))
      | None =>
          r = ((None, <[UID serv := serv]> services),
               recordCall (CAddServiceRules serv netid) (snd w))
      end
  end.
Proof.
  simpl. unfold watchServices_addRules, bind.
  destruct (WaitAndGetVNID K (Namespace (Object delta)) node) as [[netid [e|]] node1];
    simpl; [done|].
  unfold call. by destruct (AddServiceRules K node1 (Object delta) netid).
Qed.

(** Where the tail of the handler leaves the cache. *)
Lemma watchServices_addRules_cache delta services node :
  let serv := Object delta in
  let r := watchServices_addRules K delta services node in
  (is_nil (fst (fst r)) = false ∧ snd (fst r) = services) ∨
  (fst (fst r) = None ∧ snd (fst r) = <[UID serv := serv]> services ∧
   ∃ h netid, history (snd r) = h ++ [CAddServiceRules serv netid] ∧
     AddServiceRules K {| vnids := vnids (snd r); history := h |} serv netid = None).
Proof.
  intros serv r. pose proof (watchServices_addRules_cases delta services node) as H.
  simpl in H. fold serv r in H.
  destruct (WaitAndGetVNID K (Namespace serv) node) as [[netid [e|]] node1]; simpl in H.
  - left. by rewrite H.
  - destruct (AddServiceRules K node1 serv netid) as [e|] eqn:E.
    + left. by rewrite H.
    + right. rewrite H. simpl. split; [done|]. split; [done|].
      exists (history node1), netid. split; [done|]. by destruct node1.
Qed.

(** The ways through the Sync/Added/Updated case. *)
Lemma handler_headless delta services node :
  IsServiceIPSet K (Object delta) = false →
  watchServices_handler K delta services node = ((None, services), node).
Proof. intros H. unfold watchServices_handler. by rewrite H. Qed.

Lemma handler_new delta services node :
  DType delta ≠ Deleted → IsServiceIPSet K (Object delta) = true →
  services !! UID (Object delta) = None →
  watchServices_handler K delta services node =
    watchServices_addRules K delta services node.
Proof.
  intros Hd Hip Hs. unfold watchServices_handler. rewrite Hip, Hs. simpl.
  by destruct (DType delta).
Qed.

Lemma handler_unchanged delta services node old :
  DType delta ≠ Deleted → IsServiceIPSet K (Object delta) = true →
  services !! UID (Object delta) = Some old →
  isServiceChanged old (Object delta) = false →
  watchServices_handler K delta services node = ((None, services), node).
Proof.
  intros Hd Hip Hs Hc. unfold watchServices_handler. rewrite Hip, Hs, Hc. simpl.
  by destruct (DType delta).
Qed.

Lemma handler_changed delta services node old :
  DType delta ≠ Deleted → IsServiceIPSet K (Object delta) = true →
  services !! UID (Object delta) = Some old →
  isServiceChanged old (Object delta) = true →
  ∃ node2, vnids node2 = vnids node ∧
    ruleCalls (history node2) = ruleCalls (history node) ++ [CDeleteServiceRules old] ∧
    watchServices_handler K delta services node =
      watchServices_addRules K delta services node2.
Proof.
  intros Hd Hip Hs Hc.
  exists (snd (bind (call (CDeleteServiceRules old)
                       (fun node => DeleteServiceRules K node old))
                 (fun err => glogIfError "%v" err) node)).
  split; [|split].
  - unfold bind, call; simpl. by destruct (DeleteServiceRules K node old).
  - unfold bind, call, ruleCalls; simpl.
    destruct (DeleteServiceRules K node old); simpl;
      rewrite !omap_app; simpl; by rewrite ?app_nil_r.
  - unfold watchServices_handler. rewrite Hip, Hs, Hc. simpl.
    destruct (DType delta); try done; unfold bind, call; simpl;
      by destruct (DeleteServiceRules K node old).
Qed.

Lemma afterSleeps_absent name i d node :
  ids (vnids node) !! name = None →
  (∀ n, ids (vnids n) !! name = None → ids (WhileAsleep K n) !! name = None) →
  ids (vnids (afterSleeps K i d node)) !! name = None.
Proof.
  intros H0 Hs. revert d node H0.
  induction i as [|i IH]; intros d node H0; simpl; [done|].
  apply IH. unfold Sleep; simpl. by apply Hs.
Qed.

Lemma WaitAndGetVNID_never name node :
  ids (vnids node) !! name = None →
  (∀ n, ids (vnids n) !! name = None → ids (WhileAsleep K n) !! name = None) →
  fst (WaitAndGetVNID K name node) = (0%N, Some (errNoNetID name)).
Proof.
  intros H0 Hs. unfold WaitAndGetVNID.
  rewrite WaitAndGetVNID_run_exhausted; [done|].
  intros i _. by apply afterSleeps_absent.
Qed.

(** C4.  [isServiceChanged] answers "unchanged" exactly when the two port
    lists have one length and agree on protocol and port number at every
    position.  So the cached ports [TCP 80] against the same list are
    unchanged, and the handler then returns at once, the cache and the
    history as they were; against [TCP 80, TCP 443] they are changed, and
    the handler, when the namespace's VNID is in the table, deletes the
    old rules and then adds the new ones. *)
Theorem service_change_detection (oldsvc newsvc : Service) :
  (isServiceChanged oldsvc newsvc = false ↔
     length (Ports oldsvc) = length (Ports newsvc) ∧
     ∀ i o n, Ports oldsvc !! i = Some o → Ports newsvc !! i = Some n →
              Protocol o = Protocol n ∧ Port o = Port n) ∧
  (Ports oldsvc = [tcp 80] → Ports newsvc = [tcp 80] →
     isServiceChanged oldsvc newsvc = false) ∧
  (Ports oldsvc = [tcp 80] → Ports newsvc = [tcp 80; tcp 443] →
     isServiceChanged oldsvc newsvc = true) ∧
  (∀ delta services node,
     Object delta = newsvc → DType delta ≠ Deleted →
     IsServiceIPSet K newsvc = true →
     services !! UID newsvc = Some oldsvc →
     (isServiceChanged oldsvc newsvc = false →
        watchServices_handler K delta services node = ((None, services), node)) ∧
     (isServiceChanged oldsvc newsvc = true →
        ∀ netid, ids (vnids node) !! Namespace newsvc = Some netid →
        ruleCalls (history (snd (watchServices_handler K delta services node))) =
          ruleCalls (history node) ++
            [CDeleteServiceRules oldsvc; CAddServiceRules newsvc netid])).
Proof.
  split; [apply isServiceChanged_false|]. split; [|split].
  - intros Ho Hn. unfold isServiceChanged. by rewrite Ho, Hn.
  - intros Ho Hn. unfold isServiceChanged. by rewrite Ho, Hn.
  - intros delta services node <- Hd Hip Hs. split.
    + intros Hc. by apply (handler_unchanged delta services node oldsvc).
    + intros Hc netid Hid.
      destruct (handler_changed delta services node oldsvc Hd Hip Hs Hc)
        as (node2 & Hv & Hh & ->).
      pose proof (watchServices_addRules_cases delta services node2) as H.
      simpl in H. unfold WaitAndGetVNID in H.
      rewrite (WaitAndGetVNID_run_found K (Namespace (Object delta)) netid node2) in H
        by (by rewrite Hv).
      simpl in H.
      destruct (AddServiceRules K node2 (Object delta) netid); rewrite H; simpl;
        unfold ruleCalls in *; rewrite omap_app, Hh; simpl; by rewrite <- app_assoc.
Qed.

(** C10.  In the Sync/Added/Updated case the handler writes the shadow
    cache only after [AddServiceRules] has succeeded for the new
    definition: whenever it returns an error the cache is as it was, and
    whenever the cache differs the handler returned no error, the entry
    for the UID is the new definition and the last call was an
    [AddServiceRules] for it that answered no error.  In particular a
    namespace that no lookup finds, and an [AddServiceRules] that fails,
    each make the handler return the error with the cache unchanged. *)
Theorem shadow_cache_written_after_add (delta : Delta) (services : gmap string Service)
    (node : KsdnNode) :
  let serv := Object delta in
  let r := watchServices_handler K delta services node in
  DType delta ≠ Deleted →
  (is_nil (fst (fst r)) = false → snd (fst r) = services) ∧
  (snd (fst r) ≠ services →
     fst (fst r) = None ∧ snd (fst r) = <[UID serv := serv]> services ∧
     ∃ h netid, history (snd r) = h ++ [CAddServiceRules serv netid] ∧
       AddServiceRules K {| vnids := vnids (snd r); history := h |} serv netid = None) ∧
  (IsServiceIPSet K serv = true →
   (∀ old, services !! UID serv = Some old → isServiceChanged old serv = true) →
     (ids (vnids node) !! Namespace serv = None →
      (∀ n, ids (vnids n) !! Namespace serv = None →
            ids (WhileAsleep K n) !! Namespace serv = None) →
        fst r = (Some (errSkipped (DType delta) (errNoNetID (Namespace serv))), services)) ∧
     (∀ netid e, ids (vnids node) !! Namespace serv = Some netid →
      (∀ n, AddServiceRules K n serv netid = Some e) →
        fst r = (Some e, services))).
Proof.
  intros serv r Hd.
  assert (∃ node2, vnids node2 = vnids node ∧
            (r = ((None, services), node) ∧
               (IsServiceIPSet K serv = true →
                ¬ ∀ old, services !! UID serv = Some old → isServiceChanged old serv = true)
             ∨ r = watchServices_addRules K delta services node2)) as (node2 & Hv & Hr).
  { unfold r. destruct (IsServiceIPSet K serv) eqn:Hip.
    - destruct (services !! UID serv) as [old|] eqn:Hs.
      + destruct (isServiceChanged old serv) eqn:Hc.
        * destruct (handler_changed delta services node old Hd Hip Hs Hc)
            as (node2 & Hv & _ & ->). exists node2. by split; [|right].
        * exists node. split; [done|]. left.
          rewrite (handler_unchanged delta services node old) by done.
          split; [done|]. intros _ H. specialize (H old eq_refl). congruence.
      + exists node. split; [done|]. right. by apply handler_new.
    - exists node. split; [done|]. left.
      by rewrite handler_headless. }
  destruct Hr as [[-> Hno]| ->]; simpl.
  { split; [done|]. split; [done|]. intros Hip Hall. by destruct (Hno Hip). }
  pose proof (watchServices_addRules_cache delta services node2) as Hcache.
  pose proof (watchServices_addRules_cases delta services node2) as Hcases.
  simpl in Hcache, Hcases. fold serv in Hcache, Hcases.
  split; [|split].
  - intros He. destruct Hcache as [[_ ?]|[Hn _]]; [done|]. rewrite Hn in He. done.
  - intros Hne. by destruct Hcache as [[_ ?]|?].
  - intros _ _. split.
    + intros H0 Hs.
      rewrite <- Hv in H0.
      pose proof (WaitAndGetVNID_never (Namespace serv) node2 H0 Hs) as Hw.
      destruct (WaitAndGetVNID K (Namespace serv) node2) as [w n3].
      simpl in Hw. subst w. simpl in Hcases. by rewrite Hcases.
    + intros netid e Hid Hfail. unfold WaitAndGetVNID in Hcases.
      rewrite (WaitAndGetVNID_run_found K (Namespace serv) netid node2) in Hcases
        by (by rewrite Hv).
      simpl in Hcases. rewrite Hfail in Hcases. by rewrite Hcases.
Qed.

End ServicePath.

Lemma service_change_detection_witness :
  let cached := webService [tcp 80] in
  let grown := webService [tcp 80; tcp 443] in
  let services : gmap string Service := {[ "uid-1" := cached ]} in
  let node := {| vnids := setVNID "ns1" 5%N newNodeVNIDMap; history := [] |} in
  watchServices_handler calmNode {| DType := Updated; Object := cached |} services node =
    ((None, services), node) ∧
  ruleCalls (history (snd (watchServices_handler calmNode
                             {| DType := Updated; Object := grown |} services node))) =
    [CDeleteServiceRules cached; CAddServiceRules grown 5%N].
Proof.
  intros cached grown services node. split.
  - destruct (service_change_detection calmNode cached cached) as (_ & Hsame & _ & Hh).
    refine (proj1 (Hh {| DType := Updated; Object := cached |} services node
                      eq_refl _ eq_refl _) (Hsame eq_refl eq_refl)).
    + discriminate.
    + vm_compute. reflexivity.
  - destruct (service_change_detection calmNode cached grown) as (_ & _ & Hdiff & Hh).
    refine (proj2 (Hh {| DType := Updated; Object := grown |} services node
                      eq_refl _ eq_refl _) (Hdiff eq_refl eq_refl) 5%N _).
    + discriminate.
    + vm_compute. reflexivity.
    + vm_compute. reflexivity.
Defined.

Lemma shadow_cache_written_after_add_witness :
  let cached := webService [tcp 80] in
  let grown := webService [tcp 80; tcp 443] in
  let services : gmap string Service := {[ "uid-1" := cached ]} in
  let known := {| vnids := setVNID "ns1" 5%N newNodeVNIDMap; history := [] |} in
  let unknown := {| vnids := newNodeVNIDMap; history := [] |} in
  let delta := {| DType := Updated; Object := grown |} in
  fst (watchServices_handler brokenBridgeNode delta services known) =
    (Some "ovs-ofctl: add-flow failed", services) ∧
  fst (watchServices_handler calmNode delta services unknown) =
    (Some (errSkipped Updated (errNoNetID "ns1")), services).
Proof.
  intros cached grown services known unknown delta.
  assert (∀ old, services !! UID grown = Some old → isServiceChanged old grown = true) as Hch.
  { intros old Hold. vm_compute in Hold. injection Hold as <-. reflexivity. }
  assert (DType delta ≠ Deleted) as Hd by discriminate.
  split.
  - destruct (shadow_cache_written_after_add brokenBridgeNode delta services known Hd)
      as (_ & _ & H).
    destruct (H eq_refl Hch) as [_ Hadd].
    apply (Hadd 5%N "ovs-ofctl: add-flow failed"); [vm_compute; reflexivity|].
    intros n. reflexivity.
  - destruct (shadow_cache_written_after_add calmNode delta services unknown Hd)
      as (_ & _ & H).
    destruct (H eq_refl Hch) as [Hskip _].
    apply Hskip; [vm_compute; reflexivity|].
    intros n Hn. exact Hn.
Defined.

(** * Further properties of the table *)

Lemma sets_List_nil (s : gset string) : sets.List s = [] ↔ s = ∅.
Proof.
  split.
  - intros H. apply set_eq. intros n. rewrite <- elem_of_sets_List, H.
    split; [intros [] | set_solver].
  - intros ->. reflexivity.
Qed.

(** After the old entry of [name] is taken out, no reverse set holds
    [name] and none is empty. *)
Lemma withoutOld_clean name vmap :
  consistent vmap →
  ∀ v s, namespaces (withoutOld name vmap) !! v = Some s → (name ∉ s) ∧ (s ≠ ∅).
Proof.
  intros [Hf Hr Hn] v s Hs. unfold withoutOld in Hs.
  destruct (ids vmap !! name) as [old|] eqn:E.
  - split; [|by apply (nonempty_remove name old vmap Hn v)].
    intros Hin.
    assert (member (removeNamespaceFromSet name old vmap) v name) as M by (by exists s).
    apply member_remove in M as [(s' & Hs' & Hm') Hne].
    pose proof (Hr _ _ _ Hs' Hm'). naive_solver.
  - split; [|by apply (Hn v)]. intros Hin.
    pose proof (Hr _ _ _ Hs Hin). congruence.
Qed.

Lemma setVNID_lookup_withoutOld name id vmap v :
  namespaces (setVNID name id vmap) !! v =
    if decide (id = v)
    then Some (default ∅ (namespaces (withoutOld name vmap) !! id) ∪ {[name]})
    else namespaces (withoutOld name vmap) !! v.
Proof. rewrite setVNID_lookup. reflexivity. Qed.

(** Taking [name] out of the set it was just put into gives back the
    reverse index as it was without [name]. *)
Lemma remove_after_set name id vmap v :
  consistent vmap →
  namespaces (removeNamespaceFromSet name id (setVNID name id vmap)) !! v =
  namespaces (withoutOld name vmap) !! v.
Proof.
  intros Hc. rewrite removeNamespaceFromSet_lookup.
  pose proof (withoutOld_clean name vmap Hc id) as Hclean.
  destruct (decide (id = v)) as [<-|Hne];
    rewrite setVNID_lookup_withoutOld; [|by rewrite decide_False].
  rewrite decide_True by done.
  destruct (namespaces (withoutOld name vmap) !! id) as [s|] eqn:E; simpl.
  - destruct (Hclean s eq_refl) as [Hnot Hne].
    assert ((s ∪ {[name]}) ∖ {[name]} = s) as -> by set_solver.
    by rewrite decide_False.
  - rewrite decide_True; [done|set_solver].
Qed.

Lemma setVNID_same name id vmap :
  consistent vmap → ids vmap !! name = Some id → setVNID name id vmap = vmap.
Proof.
  intros Hc Hi. apply setVNID_lookup_same; [done|].
  destruct (fwd_in_rev vmap Hc name id Hi) as (s & Hs & Hin).
  rewrite Hs. simpl. f_equal. set_solver.
Qed.

(** X1.  In a table built by [setVNID]/[unsetVNID] calls no key of the
    reverse index holds an empty set, and [GetNamespaces v] is the nil
    slice exactly when no namespace has VNID [v]. *)
Theorem reverse_index_keeps_no_empty_set (cs : list TableCall) (v : uint32) :
  let vmap := applyCalls cs newNodeVNIDMap in
  namespaces vmap !! v ≠ Some ∅ ∧
  (GetNamespaces vmap v = [] ↔ ∀ n, GetVNID vmap n ≠ (v, None)).
Proof.
  intros vmap.
  destruct (consistent_applyCalls cs _ consistent_empty) as [Hf Hr Hn].
  fold vmap in Hf, Hr, Hn. split.
  - intros H. by apply (Hn v ∅).
  - unfold GetNamespaces. destruct (namespaces vmap !! v) as [s|] eqn:E.
    + rewrite sets_List_nil. split.
      * intros ->. by destruct (Hn v ∅).
      * intros H. exfalso.
        destruct (set_choose_L s (Hn v s E)) as [n Hin].
        apply (H n), GetVNID_found. by apply (Hr v s).
    + split; [|done]. intros _ n Hg. apply GetVNID_found in Hg.
      destruct (Hf n v Hg) as (s & ? & _). congruence.
Qed.

Lemma reverse_index_keeps_no_empty_set_witness :
  let vmap := applyCalls [CallSetVNID "a" 1; CallUnsetVNID "a"]%N newNodeVNIDMap in
  GetNamespaces vmap 1%N = [] ∧ namespaces vmap !! 1%N = None.
Proof.
  intros vmap. split; [|vm_compute; reflexivity].
  apply (proj2 (proj2 (reverse_index_keeps_no_empty_set
                         [CallSetVNID "a" 1; CallUnsetVNID "a"]%N 1%N))).
  intros n. assert (vmap = newNodeVNIDMap) as -> by (vm_compute; reflexivity).
  discriminate.
Defined.

(** X2.  [setVNID name id] touches one namespace: every other namespace
    keeps its [GetVNID] answer and its place in every [GetNamespaces]
    list. *)
Theorem setVNID_touches_one_namespace (vmap : nodeVNIDMap) (name m : string)
    (id : uint32) :
  m ≠ name →
  GetVNID (setVNID name id vmap) m = GetVNID vmap m ∧
  ∀ v, In m (GetNamespaces (setVNID name id vmap) v) ↔ In m (GetNamespaces vmap v).
Proof.
  intros Hne. split.
  - unfold GetVNID. by rewrite setVNID_ids, lookup_insert_ne.
  - intros v. rewrite !In_GetNamespaces.
    fold (member (setVNID name id vmap) v m) (member vmap v m).
    rewrite member_setVNID. naive_solver.
Qed.

Lemma setVNID_touches_one_namespace_witness :
  let vmap := setVNID "b" 1%N newNodeVNIDMap in
  GetVNID (setVNID "a" 1%N vmap) "b" = (1%N, None).
Proof.
  intros vmap.
  rewrite (proj1 (setVNID_touches_one_namespace vmap "a" "b" 1%N ltac:(discriminate))).
  vm_compute. reflexivity.
Defined.

(** X3.  In a table built by [setVNID]/[unsetVNID] calls, giving a VNID
    to a namespace the table does not know and then taking it away again
    returns that VNID and the table as it was before. *)
Theorem set_then_unset_restores (cs : list TableCall) (name : string) (id : uint32) :
  let vmap := applyCalls cs newNodeVNIDMap in
  ids vmap !! name = None →
  unsetVNID name (setVNID name id vmap) = ((id, None), vmap).
Proof.
  intros vmap Hnone.
  pose proof (consistent_applyCalls cs _ consistent_empty) as Hc. fold vmap in Hc.
  unfold unsetVNID. rewrite setVNID_ids, lookup_insert_eq. f_equal.
  apply nodeVNIDMap_eq; simpl.
  - rewrite removeNamespaceFromSet_ids, setVNID_ids. by apply delete_insert_id.
  - intros v. rewrite remove_after_set by done. unfold withoutOld. by rewrite Hnone.
Qed.

Lemma set_then_unset_restores_witness :
  let vmap := applyCalls [CallSetVNID "b" 7%N] newNodeVNIDMap in
  unsetVNID "a" (setVNID "a" 7%N vmap) = ((7%N, None), vmap).
Proof.
  intros vmap. apply (set_then_unset_restores [CallSetVNID "b" 7%N] "a" 7%N).
  vm_compute. reflexivity.
Defined.

(** X4.  In a table built by [setVNID]/[unsetVNID] calls the last write
    wins: two [setVNID] calls for one namespace leave the table that the
    second call alone would leave. *)
Theorem setVNID_last_write_wins (cs : list TableCall) (name : string) (v w : uint32) :
  let vmap := applyCalls cs newNodeVNIDMap in
  setVNID name w (setVNID name v vmap) = setVNID name w vmap.
Proof.
  intros vmap.
  pose proof (consistent_applyCalls cs _ consistent_empty) as Hc. fold vmap in Hc.
  apply nodeVNIDMap_eq.
  - rewrite !setVNID_ids. apply insert_insert_eq.
  - intros x. rewrite (setVNID_lookup_withoutOld name w (setVNID name v vmap)).
    rewrite (setVNID_lookup_withoutOld name w vmap).
    assert (∀ y, namespaces (withoutOld name (setVNID name v vmap)) !! y =
                 namespaces (withoutOld name vmap) !! y) as Heq.
    { intros y. unfold withoutOld at 1. rewrite setVNID_ids, lookup_insert_eq.
      by apply remove_after_set. }
    by rewrite !Heq.
Qed.

Lemma populateVNIDs_loop_ids netnsList vmap name :
  ids (populateVNIDs_loop netnsList vmap) !! name =
    match lastListed name netnsList with
    | Some id => Some id
    | None => ids vmap !! name
    end.
Proof.
  unfold populateVNIDs_loop. revert vmap.
  induction netnsList as [|net l IH]; intros vmap; simpl; [done|].
  rewrite IH. destruct (lastListed name l); [done|].
  rewrite setVNID_ids, lookup_insert.
  destruct (String.eqb_spec (NetName net) name) as [Heq|Hne].
  - by rewrite decide_True.
  - by rewrite decide_False.
Qed.

(** X5.  [populateVNIDs] stores nothing when the listing failed and
    returns the listing's error.  When the listing succeeded, a namespace
    ends up with the VNID of its last entry in the listing, a namespace the
    listing does not name keeps what it had, and the two indices of the
    table still agree. *)
Theorem populateVNIDs_last_listing_wins (cs : list TableCall)
    (netnsList : list NetNamespace) (e : error) (name : string) :
  let vmap := applyCalls cs newNodeVNIDMap in
  let vmap' := snd (populateVNIDs (netnsList, None) vmap) in
  populateVNIDs (netnsList, Some e) vmap = (Some e, vmap) ∧
  fst (populateVNIDs (netnsList, None) vmap) = None ∧
  GetVNID vmap' name =
    match lastListed name netnsList with
    | Some id => (id, None)
    | None => GetVNID vmap name
    end ∧
  (∀ v, GetVNID vmap' name = (v, None) ↔ In name (GetNamespaces vmap' v)).
Proof.
  intros vmap vmap'. split; [done|]. split; [done|]. split.
  - unfold vmap', GetVNID; simpl. rewrite populateVNIDs_loop_ids.
    by destruct (lastListed name netnsList).
  - intros v.
    assert (consistent vmap') as [Hf Hr _].
    { apply consistent_populateVNIDs, consistent_applyCalls, consistent_empty. }
    rewrite GetVNID_found, In_GetNamespaces. split; [apply Hf|].
    intros (s & Hs & Hin). by apply (Hr v s).
Qed.

Lemma populateVNIDs_last_listing_wins_witness :
  let listing := [ {| NetName := "a"; NetID := 1%N |}; {| NetName := "b"; NetID := 2%N |};
                   {| NetName := "a"; NetID := 3%N |} ] in
  let vmap' := snd (populateVNIDs (listing, None) newNodeVNIDMap) in
  GetVNID vmap' "a" = (3%N, None) ∧ In "a" (GetNamespaces vmap' 3%N).
Proof.
  intros listing vmap'.
  destruct (populateVNIDs_last_listing_wins [] listing "unused" "a") as (_ & _ & Hg & Hi).
  split; [exact Hg|]. apply (proj1 (Hi 3%N)). exact Hg.
Defined.

(** * Further properties of the namespace path *)

Lemma forEach_emits {A B} (f : Call → option B) (g : A → list B)
    (body : A → M unit) (l : list A) :
  (∀ x node, omap f (history (snd (body x node))) = omap f (history node) ++ g x) →
  ∀ node, omap f (history (snd (forEach l body node))) =
          omap f (history node) ++ flat_map g l.
Proof.
  intros Hb. induction l as [|x l IH]; intros node; simpl.
  - by rewrite app_nil_r.
  - unfold bind. pose proof (Hb x node) as Hx.
    destruct (body x node) as [[] n1]. simpl in Hx.
    by rewrite IH, Hx, <- app_assoc.
Qed.

Lemma flat_map_const_nil {A B} (l : list A) : flat_map (fun _ => @nil B) l = [].
Proof. by induction l. Qed.

Lemma flat_map_singleton {A B} (f : A → B) (l : list A) :
  flat_map (fun x => [f x]) l = map f l.
Proof. induction l as [|x l IH]; simpl; [done|]. by rewrite IH. Qed.

Section PassCalls.
Variable K : Collaborators.

Ltac step_call :=
  unfold bind, call, glogIfError, glogError, ret, recordCall; simpl;
  repeat match goal with
         | |- context [match ?o with Some _ => _ | None => _ end] => destruct o; simpl
         end;
  rewrite ?omap_app; simpl; rewrite ?app_nil_r; try done.

(** X6.  A reconciliation pass tries every item whatever fails: each
    running pod that [GetLocalPods] reported gets one [UpdatePod], each
    other pod one deletion, and each listed service with a cluster IP one
    [DeleteServiceRules] followed by one [AddServiceRules] with the new
    VNID, all in order; a failed service listing stands for no
    services. *)
Theorem pass_tries_every_item (namespace : string) (oldNetID netID : uint32)
    (node : KsdnNode) :
  let node1 := recordCall (CUpdatePodNetwork namespace oldNetID netID) node in
  let pods := GetLocalPods K node1 namespace in
  let node2 :=
    snd (glogIfError "Could not get list of local pods in namespace %q: %v"
           (snd pods) (recordCall (CGetLocalPods namespace) node1)) in
  let listed := ListServices K node2 namespace in
  let services := if is_nil (snd listed) then fst listed else [] in
  let after := snd (updatePodNetwork K namespace oldNetID netID node) in
  omap podUpdateOf (history after) =
    omap podUpdateOf (history node) ++ fst (fst pods) ∧
  omap podDeleteOf (history after) =
    omap podDeleteOf (history node) ++
      map (fun pod => (namespace, PodName pod)) (snd (fst pods)) ∧
  ruleCalls (history after) =
    ruleCalls (history node) ++ flat_map (passRuleCalls K netID) services.
Proof.
  intros node1 pods node2 listed services after.
  pose (body1 := fun pod : Pod =>
    bind (call (CUpdatePod pod) (fun node => UpdatePod K node pod))
      (fun err => glogIfError "Could not update pod %q in namespace %q: %v" err)).
  pose (body2 := fun pod : Pod =>
    bind (call (CDeletePod namespace (PodName pod))
            (fun node => DeletePod K node namespace (PodName pod)))
      (fun err => glogIfError "Could not delete pod %q in namespace %q: %v" err)).
  pose (body3 := fun svc : Service =>
    if negb (IsServiceIPSet K svc) then ret tt
    else
      bind (call (CDeleteServiceRules svc) (fun node => DeleteServiceRules K node svc))
        (fun err =>
           bind (glogIfError "Error adding OVS flows for service %v, netid %d: %v" err)
             (fun _ =>
                bind (call (CAddServiceRules svc netID)
                        (fun node => AddServiceRules K node svc netID))
                  (fun err => glogIfError "Error deleting OVS flows for service %v: %v" err)))).
  set (node3 := recordCall (CListServices namespace) node2).
  set (node4 := snd (glogIfError "Could not get list of services in namespace %q: %v"
                       (snd listed) node3)).
  assert (after = snd (forEach services body3
                         (snd (forEach (snd (fst pods)) body2
                                 (snd (forEach (fst (fst pods)) body1 node4))))))
    as Hafter.
  { unfold after, updatePodNetwork.
    unfold bind at 1. unfold call at 1. simpl. fold node1.
    unfold bind at 1. unfold call at 1. simpl. fold pods.
    unfold node4, node3, services, listed, node2. clear.
    destruct pods as [[runPods otherPods] perr]. simpl.
    unfold bind at 1.
    destruct (glogIfError "Could not get list of local pods in namespace %q: %v" perr
                (recordCall (CGetLocalPods namespace) node1)) as [[] n2]. simpl.
    unfold bind at 1. unfold call at 1. simpl.
    destruct (ListServices K n2 namespace) as [svcs serr]. simpl.
    unfold bind at 1.
    destruct (glogIfError "Could not get list of services in namespace %q: %v" serr
                (recordCall (CListServices namespace) n2)) as [[] n4]. simpl.
    fold body1 body2 body3.
    unfold bind at 1. destruct (forEach runPods body1 n4) as [[] n5]. simpl.
    unfold bind at 1. by destruct (forEach otherPods body2 n5) as [[] n6]. }
  unfold ruleCalls. rewrite Hafter. clear Hafter.
  destruct pods as [[runPods otherPods] perr] eqn:Ep. simpl in *.
  destruct listed as [svcs serr] eqn:El. simpl in *.
  assert (∀ B (f : Call → option B),
            f (CUpdatePodNetwork namespace oldNetID netID) = None →
            f (CGetLocalPods namespace) = None →
            f (CListServices namespace) = None →
            (∀ fmt e, f (CGlogError fmt e) = None) →
            omap f (history node4) = omap f (history node)) as H4.
  { intros B f H1 H2 H3 Hg. unfold node4, node3, node2, node1.
    destruct perr, serr; simpl; rewrite !omap_app; simpl;
      rewrite ?H1, ?H2, ?H3, ?Hg; simpl; by rewrite ?app_nil_r. }
  split; [|split].
  - rewrite (forEach_emits podUpdateOf (fun _ => []) body3);
      [|intros svc n; unfold body3; destruct (negb (IsServiceIPSet K svc)); step_call].
    rewrite (forEach_emits podUpdateOf (fun _ => []) body2);
      [|intros pod n; unfold body2; step_call].
    rewrite (forEach_emits podUpdateOf (fun pod => [pod]) body1);
      [|intros pod n; unfold body1; step_call].
    rewrite H4 by done.
    by rewrite !flat_map_const_nil, !app_nil_r, flat_map_singleton, map_id.
  - rewrite (forEach_emits podDeleteOf (fun _ => []) body3);
      [|intros svc n; unfold body3; destruct (negb (IsServiceIPSet K svc)); step_call].
    rewrite (forEach_emits podDeleteOf (fun pod => [(namespace, PodName pod)]) body2);
      [|intros pod n; unfold body2; step_call].
    rewrite (forEach_emits podDeleteOf (fun _ => []) body1);
      [|intros pod n; unfold body1; step_call].
    rewrite H4 by done.
    by rewrite !flat_map_const_nil, !app_nil_r, flat_map_singleton.
  - rewrite (forEach_emits ruleCallOf (passRuleCalls K netID) body3);
      [|intros svc n; unfold body3, passRuleCalls;
        destruct (IsServiceIPSet K svc); simpl; step_call;
        by rewrite <- ?app_assoc].
    rewrite (forEach_emits ruleCallOf (fun _ => []) body2);
      [|intros pod n; unfold body2; step_call].
    rewrite (forEach_emits ruleCallOf (fun _ => []) body1);
      [|intros pod n; unfold body1; step_call].
    rewrite H4 by done.
    by rewrite !flat_map_const_nil, !app_nil_r.
Qed.

End PassCalls.

Lemma pass_tries_every_item_witness :
  let node := {| vnids := newNodeVNIDMap; history := [] |} in
  let after := snd (updatePodNetwork busyNode "ns1" 0%N 5%N node) in
  omap podUpdateOf (history after) = [ {| PodName := "p1" |}; {| PodName := "p2" |} ] ∧
  omap podDeleteOf (history after) = [("ns1", "p3")] ∧
  ruleCalls (history after) =
    [CDeleteServiceRules (webService [tcp 80]); CAddServiceRules (webService [tcp 80]) 5%N].
Proof.
  intros node after.
  exact (pass_tries_every_item busyNode "ns1" 0%N 5%N node).
Defined.

Section BatchEffect.
Variable K : Collaborators.

Lemma applyCalls_app cs1 cs2 vmap :
  applyCalls (cs1 ++ cs2) vmap = applyCalls cs2 (applyCalls cs1 vmap).
Proof. unfold applyCalls. apply fold_left_app. Qed.

(** What one event does to the table and to the count of passes. *)
Lemma handle_one_event evt node :
  consistent (vnids node) →
  let after := snd (nodeHandleNetnsEvent K [evt] node) in
  vnids after = applyCalls (tableCallsOf evt) (vnids node) ∧
  (length (passes (history after)) ≤ length (passes (history node)) + 1)%nat.
Proof.
  intros Hc after. unfold after.
  destruct evt as [ty [ns id]]. destruct ty as [| |code].
  - change {| Type_ := EventAdded; NetNS := {| NetName := ns; NetID := id |} |}
      with (addedEvent ns id).
    rewrite handle_added. unfold tableCallsOf; simpl. case_decide as Hd.
    + split; [|lia]. symmetry. by apply setVNID_same.
    + rewrite updatePodNetwork_vnids, updatePodNetwork_passes. simpl.
      split; [done|]. rewrite length_app. simpl. lia.
  - change {| Type_ := EventRemoved; NetNS := {| NetName := ns; NetID := id |} |}
      with (removedEvent ns id).
    rewrite handle_removed. simpl.
    rewrite updatePodNetwork_vnids, updatePodNetwork_passes.
    split; [done|]. rewrite length_app. simpl. lia.
  - rewrite nodeHandleNetnsEvent_one. unfold tableCallsOf; simpl.
    split; [done|]. unfold passes. rewrite omap_app, length_app. simpl. lia.
Qed.

(** X7.  On a table built by [setVNID]/[unsetVNID] calls the handler's
    work on the table is the batch read as table calls, in order: a
    [setVNID] per Added event, an [unsetVNID] per Removed event, nothing
    for any other event (the guard of the Added case only skips writes
    that would change nothing).  A batch starts at most one pass per
    event. *)
Theorem batch_table_effect (cs : list TableCall) (h : list Call) (batch : list Event) :
  let node := {| vnids := applyCalls cs newNodeVNIDMap; history := h |} in
  let after := snd (nodeHandleNetnsEvent K batch node) in
  vnids after = applyCalls (cs ++ flat_map tableCallsOf batch) newNodeVNIDMap ∧
  (length (passes (history after)) ≤ length (passes h) + length batch)%nat.
Proof.
  revert cs h. induction batch as [|evt batch IH]; intros cs h node after.
  - unfold after, node. simpl. rewrite app_nil_r. split; [done|lia].
  - unfold after. rewrite nodeHandleNetnsEvent_cons.
    destruct (handle_one_event evt node) as [Hv Hp].
    { apply consistent_applyCalls, consistent_empty. }
    destruct (snd (nodeHandleNetnsEvent K [evt] node)) as [t1 h1]. simpl in Hv, Hp.
    subst t1. rewrite <- applyCalls_app.
    destruct (IH (cs ++ tableCallsOf evt) h1) as [Hv' Hp'].
    simpl in Hv', Hp'. rewrite Hv'. simpl. rewrite <- app_assoc.
    split; [done|lia].
Qed.

(** X8.  A Removed event for a namespace the table does not know still
    starts its pass, with the event's VNID as the old one, and leaves the
    table as it was. *)
Theorem removed_unknown_namespace (node : KsdnNode) (ns : string) (id : uint32) :
  ids (vnids node) !! ns = None →
  let after := snd (nodeHandleNetnsEvent K [removedEvent ns id] node) in
  vnids after = vnids node ∧
  passes (history after) = passes (history node) ++ [(ns, id, GlobalVNID)].
Proof.
  intros Hn after. unfold after. rewrite handle_removed. simpl.
  rewrite updatePodNetwork_vnids, updatePodNetwork_passes.
  split; [|done]. unfold unsetVNID. by rewrite Hn.
Qed.

End BatchEffect.

Lemma removed_unknown_namespace_witness :
  let node := {| vnids := setVNID "b" 1%N newNodeVNIDMap; history := [] |} in
  let after := snd (nodeHandleNetnsEvent calmNode [removedEvent "a" 4%N] node) in
  vnids after = vnids node ∧ passes (history after) = [("a", 4%N, GlobalVNID)].
Proof.
  intros node after.
  apply (removed_unknown_namespace calmNode node "a" 4%N).
  vm_compute. reflexivity.
Defined.

(** * Further properties of the lookups *)

Section WaitLookups.
Variable K : Collaborators.

(** One iteration of the retry loop of [WaitAndGetVNID]. *)
Lemma backoff_loop_step name i r d s :
  ExponentialBackoff_loop (waitSleep K) (Factor waitBackoff)
    (waitCondition name) i (S r) d s =
  let d' := match i with O => d | S _ => scaleDuration d (Factor waitBackoff) end in
  let s1 := match i with O => s | S _ => waitSleep K d s end in
  match ids (vnids (ws_node s1)) !! name with
  | Some id =>
      (None, {| ws_id := id; ws_attempts := S (ws_attempts s1); ws_node := ws_node s1 |})
  | None =>
      ExponentialBackoff_loop (waitSleep K) (Factor waitBackoff)
        (waitCondition name) (S i) r d'
        {| ws_id := 0%N; ws_attempts := S (ws_attempts s1); ws_node := ws_node s1 |}
  end.
Proof.
  simpl. destruct i; unfold waitCondition, GetVNID;
    match goal with |- context [ids ?t !! name] => destruct (ids t !! name) end;
    reflexivity.
Qed.

(** What the retry loop of [WaitAndGetVNID] leaves behind, from any
    iteration on. *)
Lemma backoff_loop_sound name i remaining d s :
  let r := ExponentialBackoff_loop (waitSleep K) (Factor waitBackoff)
             (waitCondition name) i remaining d s in
  (fst r = None → ids (vnids (ws_node (snd r))) !! name = Some (ws_id (snd r))) ∧
  (fst r ≠ None →
     fst r = Some ErrWaitTimeout ∧
     (remaining = 0%nat ∨ ids (vnids (ws_node (snd r))) !! name = None)) ∧
  ∃ ds, history (ws_node (snd r)) = history (ws_node s) ++ map CSleep ds ∧
        (length ds ≤ remaining - (match i with O => 1 | S _ => 0 end))%nat.
Proof.
  revert i d s. induction remaining as [|r IH]; intros i d s.
  { simpl. split; [done|]. split; [by split; [|left]|]. exists []. by rewrite app_nil_r. }
  cbv zeta. rewrite backoff_loop_step. cbv zeta.
  set (s1 := match i with O => s | S _ => waitSleep K d s end).
  assert (∃ pre, history (ws_node s1) = history (ws_node s) ++ map CSleep pre ∧
                 length pre = match i with O => 0%nat | S _ => 1%nat end)
    as (pre & Hpre & Hlen).
  { unfold s1. destruct i; [exists []|exists [d]]; simpl; by rewrite ?app_nil_r. }
  destruct (ids (vnids (ws_node s1)) !! name) as [id|] eqn:E.
  - simpl. split; [done|]. split; [done|]. exists pre. split; [done|].
    destruct i; lia.
  - match goal with |- context [ExponentialBackoff_loop _ _ _ (S i) r ?d2 ?s2] =>
      destruct (IH (S i) d2 s2) as (H1 & H2 & ds & Hh & Hl);
      destruct (ExponentialBackoff_loop (waitSleep K) (Factor waitBackoff)
                  (waitCondition name) (S i) r d2 s2) as [e s'] eqn:Eloop end.
    simpl in *. split; [done|]. split.
    + intros Hne. destruct (H2 Hne) as [Ht [->|Ha]]; [|by split; [|right]].
      split; [done|]. right. simpl in Eloop. by injection Eloop as _ <-.
    + exists (pre ++ ds). rewrite Hh, Hpre, map_app, <- app_assoc.
      split; [done|]. rewrite length_app. destruct i; lia.
Qed.

(** What a call of [WaitAndGetVNID] returns and leaves behind. *)
Lemma WaitAndGetVNID_returns (name : string) (node : KsdnNode) :
  let r := WaitAndGetVNID K name node in
  (snd (fst r) = None → GetVNID (vnids (snd r)) name = (fst (fst r), None)) ∧
  (snd (fst r) ≠ None →
     fst r = (0%N, Some (errNoNetID name)) ∧ GetVNID (vnids (snd r)) name = fst r) ∧
  ∃ ds, history (snd r) = history node ++ map CSleep ds ∧ (length ds ≤ 4)%nat.
Proof.
  intros r. unfold r, WaitAndGetVNID, WaitAndGetVNID_run, ExponentialBackoff.
  match goal with |- context [ExponentialBackoff_loop _ _ _ 0 ?n ?d ?s] =>
    destruct (backoff_loop_sound name 0 n d s) as (H1 & H2 & ds & Hh & Hl);
    destruct (ExponentialBackoff_loop (waitSleep K) (Factor waitBackoff)
                (waitCondition name) 0 n d s) as [[e|] s'] end; simpl in *.
  - split; [done|]. split; [|by exists ds].
    intros _. split; [done|]. apply GetVNID_missing.
    destruct (H2 ltac:(done)) as [_ [?|?]]; [lia|done].
  - split; [|split; [done|by exists ds]].
    intros _. apply GetVNID_found. by apply H1.
Qed.

(** X10.  Whatever the other goroutines do to the table meanwhile: a
    VNID that [WaitAndGetVNID] returns without error is the one the table
    holds for the name when the call returns; a failed call returns VNID
    0 with the not-found error and the table does not hold the name when
    it returns; and all the call adds to the history is at most four
    sleeps. *)
Theorem WaitAndGetVNID_sound (name : string) (node : KsdnNode) :
  let r := WaitAndGetVNID K name node in
  (snd (fst r) = None → GetVNID (vnids (snd r)) name = (fst (fst r), None)) ∧
  (snd (fst r) ≠ None →
     fst r = (0%N, Some (errNoNetID name)) ∧ GetVNID (vnids (snd r)) name = fst r) ∧
  ∃ ds, history (snd r) = history node ++ map CSleep ds ∧ (length ds ≤ 4)%nat.
Proof. exact (WaitAndGetVNID_returns name node). Qed.

Ltac wait_step H :=
  unfold waitCondition at 1; unfold GetVNID at 1; simpl; rewrite H; simpl.

(** X9.  [WaitAndGetVNID] rides out a late table update: when the name
    is missing at the first [k] lookups and present at lookup [k] (counted
    from 0, [k] below 5), the call returns the VNID found there, after
    [k] sleeps and [k+1] lookups. *)
Theorem WaitAndGetVNID_late_arrival (name : string) (node : KsdnNode) (k : nat)
    (v : uint32) :
  (k < 5)%nat →
  (∀ i, (i < k)%nat → ids (vnids (atAttempt K i node)) !! name = None) →
  ids (vnids (atAttempt K k node)) !! name = Some v →
  WaitAndGetVNID K name node = ((v, None), atAttempt K k node) ∧
  ws_attempts (snd (WaitAndGetVNID_run K name node)) = S k.
Proof.
  intros Hk Habs Hpres.
  assert (WaitAndGetVNID_run K name node =
            (None, {| ws_id := v; ws_attempts := S k; ws_node := atAttempt K k node |}))
    as Hrun.
  { pose proof (Habs 0%nat) as H0. pose proof (Habs 1%nat) as H1.
    pose proof (Habs 2%nat) as H2. pose proof (Habs 3%nat) as H3.
    unfold atAttempt in *. simpl in H0, H1, H2, H3.
    unfold WaitAndGetVNID_run, ExponentialBackoff. simpl.
    destruct k as [|[|[|[|[|k]]]]]; [| | | | |lia]; simpl in Hpres.
    - by wait_step Hpres.
    - wait_step H0; [|lia]. by wait_step Hpres.
    - wait_step H0; [|lia]. wait_step H1; [|lia]. by wait_step Hpres.
    - wait_step H0; [|lia]. wait_step H1; [|lia]. wait_step H2; [|lia].
      by wait_step Hpres.
    - wait_step H0; [|lia]. wait_step H1; [|lia]. wait_step H2; [|lia].
      wait_step H3; [|lia]. by wait_step Hpres. }
  unfold WaitAndGetVNID. by rewrite Hrun.
Qed.

End WaitLookups.

Lemma WaitAndGetVNID_sound_witness :
  let node := {| vnids := newNodeVNIDMap; history := [] |} in
  let r := WaitAndGetVNID lateWatcherNode "ns1" node in
  GetVNID (vnids (snd r)) "ns1" = (5%N, None).
Proof.
  intros node r.
  apply (proj1 (WaitAndGetVNID_sound lateWatcherNode "ns1" node)).
  vm_compute. reflexivity.
Defined.

Lemma WaitAndGetVNID_late_arrival_witness :
  let node := {| vnids := newNodeVNIDMap; history := [] |} in
  fst (WaitAndGetVNID lateWatcherNode "ns1" node) = (5%N, None) ∧
  history (snd (WaitAndGetVNID lateWatcherNode "ns1" node)) =
    [CSleep 100000000; CSleep 150000000].
Proof.
  intros node.
  destruct (WaitAndGetVNID_late_arrival lateWatcherNode "ns1" node 2 5%N) as [H _].
  - lia.
  - intros i Hi. do 2 (destruct i as [|i]; [vm_compute; reflexivity|]). lia.
  - vm_compute. reflexivity.
  - rewrite H. split; [reflexivity|]. vm_compute. reflexivity.
Defined.

(** * Further properties of the service path *)


Lemma DeltaType_Deleted_or (t : DeltaType) : t = Deleted ∨ t ≠ Deleted.
Proof. destruct t; (by left) || (by right). Qed.

Section ShadowCache.
Variable K : Collaborators.

(** Where a delta can leave the cache. *)
Lemma handler_cache_shape delta services node :
  let serv := Object delta in
  let cache := snd (fst (watchServices_handler K delta services node)) in
  (IsServiceIPSet K serv = false → cache = services) ∧
  (IsServiceIPSet K serv = true → DType delta = Deleted →
     cache = delete (UID serv) services) ∧
  (IsServiceIPSet K serv = true → DType delta ≠ Deleted →
     cache = services ∨ cache = <[UID serv := serv]> services).
Proof.
  intros serv cache. unfold cache. split; [|split].
  - intros H. by rewrite handler_headless.
  - intros Hip Hd. unfold watchServices_handler. fold serv. rewrite Hip, Hd. simpl.
    unfold bind, call. by destruct (DeleteServiceRules K node serv).
  - intros Hip Hd.
    assert (∃ node2, watchServices_handler K delta services node = ((None, services), node)
                     ∨ watchServices_handler K delta services node =
                       watchServices_addRules K delta services node2) as [node2 [->| ->]].
    { destruct (services !! UID serv) as [old|] eqn:Hs.
      - destruct (isServiceChanged old serv) eqn:Hc.
        + destruct (handler_changed K delta services node old Hd Hip Hs Hc)
            as (node2 & _ & _ & ->). exists node2. by right.
        + exists node. left. by apply (handler_unchanged K delta services node old).
      - exists node. right. by apply handler_new. }
    + by left.
    + destruct (watchServices_addRules_cache K delta services node2) as [[_ ?]|(_ & ? & _)];
        [by left|by right].
Qed.

(** X11.  Whatever a delta does, it touches the shadow cache at the
    UID of its service only, and it keeps the cache well-keyed: when every
    entry sits under its own UID and has a cluster IP, the same holds
    afterwards. *)
Theorem shadow_cache_stays_keyed_by_uid (delta : Delta) (services : gmap string Service)
    (node : KsdnNode) :
  let cache := snd (fst (watchServices_handler K delta services node)) in
  (∀ k, k ≠ UID (Object delta) → cache !! k = services !! k) ∧
  (map_Forall (fun k svc => UID svc = k ∧ IsServiceIPSet K svc = true) services →
   map_Forall (fun k svc => UID svc = k ∧ IsServiceIPSet K svc = true) cache).
Proof.
  intros cache.
  destruct (handler_cache_shape delta services node) as (Hh & Hd & Hu).
  fold cache in Hh, Hd, Hu.
  destruct (IsServiceIPSet K (Object delta)) eqn:Hip.
  - destruct (DeltaType_Deleted_or (DType delta)) as [Hdel|Hdel].
    + rewrite (Hd eq_refl Hdel). split.
      * intros k Hk. by rewrite lookup_delete_ne.
      * intros Hall. by apply map_Forall_delete.
    + destruct (Hu eq_refl Hdel) as [->| ->]; [done|]. split.
      * intros k Hk. by rewrite lookup_insert_ne.
      * intros Hall. by apply map_Forall_insert_2.
  - by rewrite (Hh eq_refl).
Qed.

(** X13.  The cache forgets a deleted service: after a Sync, Added or
    Updated delta for a service with a cluster IP and a later Deleted
    delta for it, whatever the collaborators answered, the cache is the
    first cache without that UID, which is the first cache when it had no
    entry for the UID; deltas for a headless service change nothing. *)
Theorem cache_forgets_deleted_service (t : DeltaType) (serv : Service)
    (services : gmap string Service) (node later : KsdnNode) :
  t ≠ Deleted →
  let first := watchServices_handler K {| DType := t; Object := serv |} services node in
  let cache :=
    snd (fst (watchServices_handler K {| DType := Deleted; Object := serv |}
                (snd (fst first)) later)) in
  (IsServiceIPSet K serv = true → cache = delete (UID serv) services) ∧
  (IsServiceIPSet K serv = false → cache = services) ∧
  (services !! UID serv = None → cache = services).
Proof.
  intros Ht first cache.
  destruct (handler_cache_shape {| DType := t; Object := serv |} services node)
    as (Hh1 & _ & Hu1).
  destruct (handler_cache_shape {| DType := Deleted; Object := serv |}
              (snd (fst first)) later) as (Hh2 & Hd2 & _).
  simpl in *. fold first in Hh1, Hu1. fold cache in Hh2, Hd2.
  assert (IsServiceIPSet K serv = true → cache = delete (UID serv) services) as Htrue.
  { intros Hip. rewrite (Hd2 Hip eq_refl).
    destruct (Hu1 Hip Ht) as [->| ->]; [done|]. apply delete_insert_eq. }
  assert (IsServiceIPSet K serv = false → cache = services) as Hfalse.
  { intros Hip. by rewrite (Hh2 Hip), (Hh1 Hip). }
  split; [done|]. split; [done|].
  intros Hnone. destruct (IsServiceIPSet K serv) eqn:Hip; [|by apply Hfalse].
  rewrite Htrue by done. by apply delete_id.
Qed.


End ShadowCache.

(** X12.  [isServiceChanged] compares the two sequences of (protocol,
    port number) pairs and nothing else: it answers "unchanged" exactly
    when they are equal, whatever the other fields of the two services
    are, and it gives one answer for both orders of its arguments. *)
Theorem isServiceChanged_compares_port_keys (a b : Service) :
  (isServiceChanged a b = false ↔ portKey <$> Ports a = portKey <$> Ports b) ∧
  isServiceChanged a b = isServiceChanged b a.
Proof.
  assert (∀ x y, isServiceChanged x y = false ↔
                 portKey <$> Ports x = portKey <$> Ports y) as Hkeys.
  { intros x y. rewrite isServiceChanged_false. split.
    - intros [Hl Hp]. apply list_eq. intros i. rewrite !list_lookup_fmap.
      destruct (Ports x !! i) as [o|] eqn:Eo, (Ports y !! i) as [n|] eqn:En; simpl.
      + destruct (Hp i o n Eo En) as [H1 H2]. unfold portKey. by rewrite H1, H2.
      + apply lookup_lt_Some in Eo. apply lookup_ge_None in En. lia.
      + apply lookup_ge_None in Eo. apply lookup_lt_Some in En. lia.
      + done.
    - intros Heq. split.
      + by rewrite <- (length_fmap portKey (Ports x)), Heq, length_fmap.
      + intros i o n Eo En.
        assert ((portKey <$> Ports x) !! i = (portKey <$> Ports y) !! i) as Hi
          by (by rewrite Heq).
        rewrite !list_lookup_fmap, Eo, En in Hi. simpl in Hi.
        unfold portKey in Hi. by injection Hi as -> ->. }
  split; [apply Hkeys|].
  destruct (isServiceChanged a b) eqn:Hab, (isServiceChanged b a) eqn:Hba; try done.
  - apply Hkeys in Hba. symmetry in Hba. apply Hkeys in Hba. congruence.
  - apply Hkeys in Hab. symmetry in Hab. apply Hkeys in Hab. congruence.
Qed.

Lemma shadow_cache_stays_keyed_by_uid_witness :
  let cached := webService [tcp 80] in
  let grown := webService [tcp 80; tcp 443] in
  let services : gmap string Service := {[ "uid-1" := cached ]} in
  let node := {| vnids := setVNID "ns1" 5%N newNodeVNIDMap; history := [] |} in
  let cache := snd (fst (watchServices_handler calmNode
                           {| DType := Updated; Object := grown |} services node)) in
  map_Forall (fun k svc => UID svc = k ∧ IsServiceIPSet calmNode svc = true) cache.
Proof.
  intros cached grown services node cache.
  apply (proj2 (shadow_cache_stays_keyed_by_uid calmNode
                  {| DType := Updated; Object := grown |} services node)).
  apply map_Forall_singleton. split; reflexivity.
Defined.

Lemma cache_forgets_deleted_service_witness :
  let node := {| vnids := setVNID "ns1" 5%N newNodeVNIDMap; history := [] |} in
  let first := watchServices_handler calmNode
                 {| DType := Added; Object := webService [tcp 80] |} ∅ node in
  snd (fst first) !! "uid-1" = Some (webService [tcp 80]) ∧
  snd (fst (watchServices_handler calmNode
              {| DType := Deleted; Object := webService [tcp 80] |}
              (snd (fst first)) (snd first))) = ∅.
Proof.
  intros node first. split; [vm_compute; reflexivity|].
  destruct (cache_forgets_deleted_service calmNode Added (webService [tcp 80]) ∅
              node (snd first)) as (_ & _ & H).
  - discriminate.
  - apply H. vm_compute. reflexivity.
Defined.


Lemma isServiceChanged_compares_port_keys_witness :
  isServiceChanged (webService [tcp 80])
    {| Name := "other"; Namespace := "ns2"; UID := "uid-9";
       ClusterIP := "10.96.0.99"; Ports := [tcp 80] |} = false.
Proof.
  apply (proj1 (isServiceChanged_compares_port_keys _ _)). reflexivity.
Defined.
